(** * KRNL-counter: the transaction runner of [counter-interact.js]

    A shallow embedding of the script that sends [INCREMENT_COUNT]
    sequential [increment()] transactions to a Counter contract and keeps
    success, failure and gas statistics.

    The script talks to a remote node and to the Node.js runtime.  Both are
    modelled as a [world]: for every kind of asynchronous call, the reply the
    k-th call of that kind receives.  The script itself is a computation in a
    state-and-exception monad [M]: the state holds the mutable locals of
    [main] ([successCount], [failCount], [totalGasUsed], [totalGasCost]), how
    many replies of each kind were consumed, and the observable events
    (console lines, RPC requests, timers) in the order they happened.

    Assumptions of the model, stated once:
    - every awaited promise settles (it resolves or rejects);
    - BigInt values are [Z]; JS numbers that only ever hold small integers
      (the loop index and the two counters) are [nat] and [Z];
    - JS numbers that are not integers (the draws of [Math.random()] and
      their product with the width of the delay range) are binary64
      numbers, held as the rationals they denote; the product is rounded
      to the nearest binary64 number, ties to even, as [*] does;
    - [formatEth] (float parsing and [toFixed]) is a parameter: a total
      function from wei to text. *)

From Stdlib Require Import ZArith QArith Qpower Qround List String Bool.
From Stdlib Require Import Lia Lqa.
From Stdlib Require Import DecimalString.
Import ListNotations.

Open Scope Z_scope.

(* ================================================================= *)
(** ** Values exchanged with ethers and the node *)

(** A JS [Error]; the script only reads [error.message]. *)
Record js_error := mkError { message : string }.

(** A settled promise. *)
Inductive reply (A : Type) : Type :=
| Resolve (a : A)
| Reject (e : js_error).
Arguments Resolve {A} a.
Arguments Reject {A} e.

(** The fields of a transaction response the script reads.  A gas price
    is a BigInt or is absent ([null] / [undefined]). *)
Record tx_response := mkTx {
  tx_hash : string;
  tx_gasPrice : option Z
}.

(** The fields of a receipt the script reads. *)
Record tx_receipt := mkReceipt {
  receipt_gasUsed : Z;
  receipt_gasPrice : option Z
}.

(** [process.env] as read on lines 16-18. *)
Record env := mkEnv {
  PRIVATE_KEY : option string;
  SEPOLIA_RPC_URL : option string;
  COUNTER_ADDRESS : option string
}.

(** The constants of lines 19-21. *)
Record constants := mkConstants {
  INCREMENT_COUNT : nat;
  MIN_DELAY : Z;
  MAX_DELAY : Z
}.

Definition source_constants : constants :=
  {| INCREMENT_COUNT := 50; MIN_DELAY := 1000; MAX_DELAY := 3000 |}.

(** What the outside answers.  Each function gives the reply to the k-th
    call of its kind, counting from 0. *)
Record world := mkWorld {
  (** lines 36-38: [Some e] when a constructor of provider, wallet or
      contract throws [e] (malformed key or address) *)
  ethers_setup : option js_error;
  getBalance_reply : nat -> reply Z;
  getCount_reply : nat -> reply Z;
  increment_reply : nat -> reply tx_response;
  wait_reply : nat -> reply tx_receipt;
  (** the number [Math.random()] returns, as the rational it denotes *)
  Math_random : nat -> Q
}.

(* ================================================================= *)
(** ** Observable events *)

Inductive rpc := GetBalance | GetCount | Increment | Wait.

(** One constructor per [console.log] / [console.error] call of the
    script, carrying the values it prints. *)
Inductive line :=
| L_noKey | L_noAddress | L_deployFirst
| L_banner | L_bannerRule
| L_contractAddress (a : option string)
| L_walletAddress
| L_target (n : nat)
| L_delayRange (lo hi : Z)
| L_blank
| L_walletBalance (wei : Z)
| L_insufficient
| L_initialValue (c : Z)
| L_starting
| L_incrementing (i n : nat) (current : Z)
| L_sent (h : string)
| L_success (newCount : Z)
| L_gas (used cost : Z)
| L_waiting (ms : Z)
| L_error (msg : string)
| L_waiting5
| L_finalStatistics | L_finalRule
| L_initialCount (c : Z)
| L_finalCount (c : Z)
| L_actualIncrements (d : Z)
| L_successes (n : Z)
| L_failed (n : Z)
| L_successRate (succ : Z) (n : nat)
| L_totalGasUsed (g : Z)
| L_totalGasCost (wei : Z)
| L_avgGasPerTx (text : string)
| L_avgCostPerTx (text : string)
| L_initialBalance (wei : Z)
| L_finalBalance (wei : Z)
| L_totalSpent (wei : Z)
| L_completed
| L_fatal (e : js_error).

Inductive event :=
| Log (l : line)          (* console.log *)
| LogError (l : line)     (* console.error *)
| Rpc (c : rpc)           (* a request sent to the node *)
| Sleep (ms : Z).         (* an awaited setTimeout *)

(* ================================================================= *)
(** ** Machine state and the monad *)

Record state := mkState {
  n_getBalance : nat;
  n_getCount : nat;
  n_increment : nat;
  n_wait : nat;
  n_random : nat;
  successCount : Z;
  failCount : Z;
  totalGasUsed : Z;
  totalGasCost : Z;
  events : list event
}.

Definition initial_state : state :=
  mkState 0 0 0 0 0 0 0 0 0 [].

(** How a computation ends: a value, a thrown error, or [process.exit]. *)
Inductive outcome (A : Type) : Type :=
| Ret (a : A)
| Throw (e : js_error)
| Exit (code : Z).
Arguments Ret {A} a.
Arguments Throw {A} e.
Arguments Exit {A} code.

Definition M (A : Type) : Type := state -> outcome A * state.

Definition ret {A} (a : A) : M A := fun s => (Ret a, s).

Definition bind {A B} (m : M A) (f : A -> M B) : M B :=
  fun s =>
    match m s with
    | (Ret a, s') => f a s'
    | (Throw e, s') => (Throw e, s')
    | (Exit c, s') => (Exit c, s')
    end.

Definition throw {A} (e : js_error) : M A := fun s => (Throw e, s).

Definition process_exit {A} (code : Z) : M A := fun s => (Exit code, s).

(** [try { body } catch (error) { handler }]: only a thrown error reaches
    the handler; [process.exit] does not. *)
Definition try_catch {A} (body : M A) (handler : js_error -> M A) : M A :=
  fun s =>
    match body s with
    | (Throw e, s') => handler e s'
    | r => r
    end.

Declare Scope js_scope.
Delimit Scope js_scope with js.
Notation "x <- m ;; k" := (bind m (fun x => k))
  (at level 61, m at next level, right associativity) : js_scope.
Notation "m ;; k" := (bind m (fun _ => k))
  (at level 61, right associativity) : js_scope.
Open Scope js_scope.

Definition exec {A} (m : M A) (s : state) : state := snd (m s).
Definition result {A} (m : M A) (s : state) : outcome A := fst (m s).

(** *** State updates *)

Definition emit (e : event) : M unit :=
  fun s => (Ret tt,
    mkState (n_getBalance s) (n_getCount s) (n_increment s) (n_wait s)
            (n_random s) (successCount s) (failCount s) (totalGasUsed s)
            (totalGasCost s) (events s ++ [e])).

Definition console_log (l : line) : M unit := emit (Log l).
Definition console_error (l : line) : M unit := emit (LogError l).
Definition sleep (ms : Z) : M unit := emit (Sleep ms).

Definition set_stats (sc fc gu gc : Z) : M unit :=
  fun s => (Ret tt,
    mkState (n_getBalance s) (n_getCount s) (n_increment s) (n_wait s)
            (n_random s) sc fc gu gc (events s)).

Definition get {A} (f : state -> A) : M A := fun s => (Ret (f s), s).

(** [successCount++] *)
Definition incr_successCount : M unit :=
  fun s => set_stats (successCount s + 1) (failCount s)
                     (totalGasUsed s) (totalGasCost s) s.

(** [failCount++] *)
Definition incr_failCount : M unit :=
  fun s => set_stats (successCount s) (failCount s + 1)
                     (totalGasUsed s) (totalGasCost s) s.

(** [totalGasUsed += g] *)
Definition add_totalGasUsed (g : Z) : M unit :=
  fun s => set_stats (successCount s) (failCount s)
                     (totalGasUsed s + g) (totalGasCost s) s.

(** [totalGasCost += c] *)
Definition add_totalGasCost (c : Z) : M unit :=
  fun s => set_stats (successCount s) (failCount s)
                     (totalGasUsed s) (totalGasCost s + c) s.

Definition await {A} (r : reply A) : M A :=
  match r with
  | Resolve a => ret a
  | Reject e => throw e
  end.

(* ================================================================= *)
(** ** JS operators the script relies on *)

(** Falsy values among those a gas price can take: [null], [undefined]
    and [0n]. *)
Definition js_falsy (v : option Z) : bool :=
  match v with
  | Some p => p =? 0
  | None => true
  end.

(** [a || b]: the left operand when it is truthy, else the right one. *)
Definition js_or (a b : option Z) : option Z :=
  if js_falsy a then b else a.

Definition TypeError_mix : js_error :=
  mkError "Cannot mix BigInt and other types, use explicit conversions".

Definition RangeError_div : js_error := mkError "Division by zero".

(** [a * b] with [a] a BigInt: a [TypeError] when [b] is not one. *)
Definition bigint_mul (a : Z) (b : option Z) : M Z :=
  match b with
  | Some p => ret (a * p)
  | None => throw TypeError_mix
  end.

(** [a / b] on BigInts: truncates toward zero, [RangeError] on [0n]. *)
Definition bigint_div (a b : Z) : M Z :=
  if b =? 0 then throw RangeError_div else ret (Z.quot a b).

(** [z.toString()] on a BigInt. *)
Definition bigint_toString (z : Z) : string :=
  NilZero.string_of_int (Z.to_int z).

(** *** Numbers

    A JS number is a binary64 floating-point number.  Those of the script
    are finite; each is held as the rational it denotes. *)

(** [2^e] *)
Definition Qpow2 (e : Z) : Q := ((2 # 1) ^ e)%Q.

(** For [x > 0], the exponent [e] of the binade of [x]:
    [2^e <= x < 2^(e+1)]. *)
Definition binade (x : Q) : Z :=
  let e0 := Z.log2 (Qnum x) - Z.log2 (Zpos (Qden x)) in
  if Qle_bool (Qpow2 e0) x then e0 else e0 - 1.

(** The nearest integer, ties to the even one. *)
Definition round_half_even (y : Q) : Z :=
  let f := Qfloor y in
  match (y - inject_Z f ?= 1 # 2)%Q with
  | Lt => f
  | Gt => f + 1
  | Eq => if Z.even f then f else f + 1
  end.

(** The binary64 number nearest to [x], ties to even: 53 significant
    bits, and multiples of [2^-1074] among the subnormal numbers.  Overflow
    to infinity, at [2^1024], is beyond the numbers of the script. *)
Definition round_double (x : Q) : Q :=
  match (x ?= 0)%Q with
  | Eq => 0%Q
  | Gt =>
      let q := Z.max (binade x - 52) (-1074) in
      (inject_Z (round_half_even (x / Qpow2 q)) * Qpow2 q)%Q
  | Lt =>
      let q := Z.max (binade (- x) - 52) (-1074) in
      (- (inject_Z (round_half_even (- x / Qpow2 q)) * Qpow2 q))%Q
  end.

(** [a * b] on numbers: the exact product, rounded. *)
Definition number_mul (a b : Q) : Q := round_double (a * b).

(** [Math.floor(x)] *)
Definition Math_floor (x : Q) : Z := Qfloor x.

(** A value of [process.env] is falsy when unset or empty. *)
Definition falsy (v : option string) : bool :=
  match v with
  | None => true
  | Some s => (s =? "")%string
  end.

(* ================================================================= *)
(** ** The script *)

Section Runner.

Variable formatEth : Z -> string.
Variable K : constants.
Variable E : env.
Variable W : world.

(** Line 17: [process.env.SEPOLIA_RPC_URL || 'https://rpc.sepolia.org'] *)
Definition RPC_URL : string :=
  match SEPOLIA_RPC_URL E with
  | Some url => if (url =? "")%string then "https://rpc.sepolia.org" else url
  | None => "https://rpc.sepolia.org"
  end.

(** *** Calls that leave the process *)

(** [provider.getBalance(wallet.address)] *)
Definition provider_getBalance : M Z :=
  fun s =>
    await (getBalance_reply W (n_getBalance s))
      (mkState (S (n_getBalance s)) (n_getCount s) (n_increment s)
               (n_wait s) (n_random s) (successCount s) (failCount s)
               (totalGasUsed s) (totalGasCost s)
               (events s ++ [Rpc GetBalance])).

(** [contract.getCount()] *)
Definition contract_getCount : M Z :=
  fun s =>
    await (getCount_reply W (n_getCount s))
      (mkState (n_getBalance s) (S (n_getCount s)) (n_increment s)
               (n_wait s) (n_random s) (successCount s) (failCount s)
               (totalGasUsed s) (totalGasCost s)
               (events s ++ [Rpc GetCount])).

(** [contract.increment()] *)
Definition contract_increment : M tx_response :=
  fun s =>
    await (increment_reply W (n_increment s))
      (mkState (n_getBalance s) (n_getCount s) (S (n_increment s))
               (n_wait s) (n_random s) (successCount s) (failCount s)
               (totalGasUsed s) (totalGasCost s)
               (events s ++ [Rpc Increment])).

(** [tx.wait()] *)
Definition tx_wait : M tx_receipt :=
  fun s =>
    await (wait_reply W (n_wait s))
      (mkState (n_getBalance s) (n_getCount s) (n_increment s)
               (S (n_wait s)) (n_random s) (successCount s) (failCount s)
               (totalGasUsed s) (totalGasCost s)
               (events s ++ [Rpc Wait])).

(** [Math.random()] *)
Definition random : M Q :=
  fun s =>
    (Ret (Math_random W (n_random s)),
     mkState (n_getBalance s) (n_getCount s) (n_increment s) (n_wait s)
             (S (n_random s)) (successCount s) (failCount s)
             (totalGasUsed s) (totalGasCost s) (events s)).

(** *** Lines 40-44 *)

(** [Math.floor(r * (MAX_DELAY - MIN_DELAY + 1)) + MIN_DELAY].  The
    difference and the two sums are between integers below [2^53] and are
    exact; the product is a product of numbers. *)
Definition delay_of (r : Q) : Z :=
  Math_floor (number_mul r (inject_Z (MAX_DELAY K - MIN_DELAY K + 1)))
  + MIN_DELAY K.

Definition randomDelay : M unit :=
  r <- random ;;
  sleep (delay_of r).

(** *** Lines 84-130: one iteration of the loop *)

Definition attempt (i : nat) : M unit :=
  try_catch
    (currentCount <- contract_getCount ;;
     console_log (L_incrementing i (INCREMENT_COUNT K) currentCount) ;;
     tx <- contract_increment ;;
     console_log (L_sent (tx_hash tx)) ;;
     receipt <- tx_wait ;;
     let gasUsed := receipt_gasUsed receipt in
     let gasPrice := js_or (receipt_gasPrice receipt) (tx_gasPrice tx) in
     gasCost <- bigint_mul gasUsed gasPrice ;;
     add_totalGasUsed gasUsed ;;
     add_totalGasCost gasCost ;;
     newCount <- contract_getCount ;;
     console_log (L_success newCount) ;;
     console_log (L_gas gasUsed gasCost) ;;
     incr_successCount ;;
     if (i <? INCREMENT_COUNT K)%nat then
       r <- random ;;
       console_log (L_waiting (delay_of r)) ;;
       randomDelay ;;
       console_log L_blank
     else ret tt)
    (fun error =>
       console_error (L_error (message error)) ;;
       incr_failCount ;;
       console_log L_waiting5 ;;
       sleep 5000 ;;
       console_log L_blank).

(** [for (let i = 1; i <= INCREMENT_COUNT; i++)], entered at index [i]
    with [remaining] iterations to go. *)
Fixpoint attempts_from (remaining i : nat) : M unit :=
  match remaining with
  | O => ret tt
  | S k => attempt i ;; attempts_from k (S i)
  end.

Definition attempt_loop : M unit := attempts_from (INCREMENT_COUNT K) 1.

(** *** Lines 150-151: the two averages *)

Definition avgGasPerTx : M string :=
  sc <- get successCount ;;
  if 0 <? sc then
    total <- get totalGasUsed ;;
    q <- bigint_div total sc ;;
    ret (bigint_toString q)
  else ret "0"%string.

Definition avgCostPerTx : M string :=
  sc <- get successCount ;;
  if 0 <? sc then
    total <- get totalGasCost ;;
    q <- bigint_div total sc ;;
    ret (formatEth q ++ " ETH")%string
  else ret "0 ETH"%string.

(** *** Lines 132-159: the report *)

Definition report (balance initialCount : Z) : M unit :=
  console_log L_blank ;;
  console_log L_finalStatistics ;;
  console_log L_finalRule ;;
  finalCount <- contract_getCount ;;
  console_log (L_initialCount initialCount) ;;
  console_log (L_finalCount finalCount) ;;
  console_log (L_actualIncrements (finalCount - initialCount)) ;;
  console_log L_blank ;;
  sc <- get successCount ;;
  console_log (L_successes sc) ;;
  fc <- get failCount ;;
  console_log (L_failed fc) ;;
  console_log (L_successRate sc (INCREMENT_COUNT K)) ;;
  console_log L_blank ;;
  gu <- get totalGasUsed ;;
  console_log (L_totalGasUsed gu) ;;
  gc <- get totalGasCost ;;
  console_log (L_totalGasCost gc) ;;
  ag <- avgGasPerTx ;;
  console_log (L_avgGasPerTx ag) ;;
  ac <- avgCostPerTx ;;
  console_log (L_avgCostPerTx ac) ;;
  console_log L_blank ;;
  finalBalance <- provider_getBalance ;;
  console_log (L_initialBalance balance) ;;
  console_log (L_finalBalance finalBalance) ;;
  console_log (L_totalSpent (balance - finalBalance)) ;;
  console_log L_blank ;;
  console_log L_completed.

(** *** Lines 51-82: banner, balance check, initial count, counters *)

Definition startup : M (Z * Z) :=
  console_log L_banner ;;
  console_log L_bannerRule ;;
  console_log (L_contractAddress (COUNTER_ADDRESS E)) ;;
  console_log L_walletAddress ;;
  console_log (L_target (INCREMENT_COUNT K)) ;;
  console_log (L_delayRange (MIN_DELAY K) (MAX_DELAY K)) ;;
  console_log L_blank ;;
  balance <- provider_getBalance ;;
  console_log (L_walletBalance balance) ;;
  (if balance =? 0 then
     console_error L_insufficient ;;
     process_exit 1
   else ret tt) ;;
  initialCount <- contract_getCount ;;
  console_log (L_initialValue initialCount) ;;
  console_log L_blank ;;
  set_stats 0 0 0 0 ;;
  console_log L_starting ;;
  console_log L_blank ;;
  ret (balance, initialCount).

(** *** Lines 51-160 *)

Definition main : M unit :=
  started <- startup ;;
  attempt_loop ;;
  report (fst started) (snd started).

(** *** The whole module: lines 23-38 and 162-165 *)

Definition script : M unit :=
  if falsy (PRIVATE_KEY E) then
    console_error L_noKey ;;
    process_exit 1
  else if falsy (COUNTER_ADDRESS E) then
    console_error L_noAddress ;;
    console_error L_deployFirst ;;
    process_exit 1
  else
    match ethers_setup W with
    | Some e => throw e
    | None =>
        try_catch main
          (fun error =>
             console_error (L_fatal error) ;;
             process_exit 1)
    end.

(** The exit code of the process: [process.exit(c)] gives [c], an
    uncaught exception gives 1, running to the end gives 0. *)
Definition exit_code (o : outcome unit) : Z :=
  match o with
  | Ret _ => 0
  | Throw _ => 1
  | Exit c => c
  end.

Definition run : Z * state :=
  let (o, s) := script initial_state in (exit_code o, s).

End Runner.

(* ================================================================= *)
(** ** Vocabulary of the statements *)

(** The durations of the timers in a trace, oldest first. *)
Fixpoint slept (evs : list event) : list Z :=
  match evs with
  | [] => []
  | Sleep ms :: rest => ms :: slept rest
  | _ :: rest => slept rest
  end.

(** The lines of the final report that carry a statistic (lines 138-157
    of the script). *)
Definition statistic_line (l : line) : bool :=
  match l with
  | L_initialCount _ | L_finalCount _ | L_actualIncrements _
  | L_successes _ | L_failed _ | L_successRate _ _
  | L_totalGasUsed _ | L_totalGasCost _
  | L_avgGasPerTx _ | L_avgCostPerTx _
  | L_initialBalance _ | L_finalBalance _ | L_totalSpent _ => true
  | _ => false
  end.

Definition prints_statistic (e : event) : bool :=
  match e with
  | Log l => statistic_line l
  | _ => false
  end.

(** Two states hold the same four statistics. *)
Definition same_stats (s s' : state) : Prop :=
  successCount s' = successCount s /\ failCount s' = failCount s /\
  totalGasUsed s' = totalGasUsed s /\ totalGasCost s' = totalGasCost s.

(** What the report prints between the two final reads: lines 138-152. *)
Definition statistics_block (K : constants) (s : state)
           (initialCount finalCount : Z) (avgGas avgCost : string)
  : list event :=
  [ Log (L_initialCount initialCount);
    Log (L_finalCount finalCount);
    Log (L_actualIncrements (finalCount - initialCount));
    Log L_blank;
    Log (L_successes (successCount s));
    Log (L_failed (failCount s));
    Log (L_successRate (successCount s) (INCREMENT_COUNT K));
    Log L_blank;
    Log (L_totalGasUsed (totalGasUsed s));
    Log (L_totalGasCost (totalGasCost s));
    Log (L_avgGasPerTx avgGas);
    Log (L_avgCostPerTx avgCost);
    Log L_blank ].

(** No line of the final report that carries a statistic was printed. *)
Definition report_not_printed (s : state) : Prop :=
  forall e, In e (events s) -> prints_statistic e = false.

(** The balance, the initial count and the state with which a run leaves
    the loop, when it gets through [startup]. *)
Definition loop_end (K : constants) (E : env) (W : world)
  : option (Z * Z * state) :=
  match startup K E W initial_state with
  | (Ret (balance, initialCount), s0) =>
      Some (balance, initialCount, exec (attempt_loop K W) s0)
  | _ => None
  end.

(** Which way one iteration goes, read off the replies it will get. *)
Inductive path :=
| FailedRead (e : js_error)
| FailedSubmit (e : js_error)
| FailedWait (e : js_error)
| FailedCost (r : tx_receipt)
| FailedPostRead (r : tx_receipt) (p : Z) (e : js_error)
| Succeeded (r : tx_receipt) (p : Z).

Definition path_of (W : world) (s : state) : path :=
  match getCount_reply W (n_getCount s) with
  | Reject e => FailedRead e
  | Resolve _ =>
    match increment_reply W (n_increment s) with
    | Reject e => FailedSubmit e
    | Resolve tx =>
      match wait_reply W (n_wait s) with
      | Reject e => FailedWait e
      | Resolve r =>
        match js_or (receipt_gasPrice r) (tx_gasPrice tx) with
        | None => FailedCost r
        | Some p =>
          match getCount_reply W (S (n_getCount s)) with
          | Reject e => FailedPostRead r p e
          | Resolve _ => Succeeded r p
          end
        end
      end
    end
  end.

(** Quantities reported by the node are unsigned. *)
Definition unsigned_replies (W : world) : Prop :=
  (forall k r, wait_reply W k = Resolve r ->
     0 <= receipt_gasUsed r /\
     forall p, receipt_gasPrice r = Some p -> 0 <= p) /\
  (forall k t p, increment_reply W k = Resolve t ->
     tx_gasPrice t = Some p -> 0 <= p).

(* ================================================================= *)
(** ** Concrete environments and worlds *)

Definition plain_wei (wei : Z) : string := bigint_toString wei.

Definition env_ok : env :=
  {| PRIVATE_KEY := Some "0x59c6"%string;
     SEPOLIA_RPC_URL := None;
     COUNTER_ADDRESS := Some "0x5FbD"%string |}.

Definition env_no_key : env :=
  {| PRIVATE_KEY := None;
     SEPOLIA_RPC_URL := None;
     COUNTER_ADDRESS := Some "0x5FbD"%string |}.

Definition one_ether : Z := 10 ^ 18.

(** A node where every call succeeds: 21000 gas per transaction at a gas
    price of 1, and a counter that follows the confirmed transactions. *)
Definition steady_world : world :=
  {| ethers_setup := None;
     getBalance_reply := fun _ => Resolve one_ether;
     getCount_reply := fun k => Resolve (Z.of_nat (k / 2));
     increment_reply := fun _ => Resolve (mkTx "0xa1" (Some 1));
     wait_reply := fun _ => Resolve (mkReceipt 21000 (Some 1));
     Math_random := fun _ => (1 # 2)%Q |}.

(** As [steady_world], but the counter read that follows the first
    confirmed transaction is rejected by the node. *)
Definition lost_read_world : world :=
  {| ethers_setup := None;
     getBalance_reply := fun _ => Resolve one_ether;
     getCount_reply := fun k =>
       if (k =? 2)%nat then Reject (mkError "429 Too Many Requests")
       else Resolve (Z.of_nat (k / 2));
     increment_reply := fun _ => Resolve (mkTx "0xa1" (Some 1));
     wait_reply := fun _ => Resolve (mkReceipt 21000 (Some 1));
     Math_random := fun _ => (1 # 2)%Q |}.

(** As [steady_world], but the second submission is rejected. *)
Definition lost_submit_world : world :=
  {| ethers_setup := None;
     getBalance_reply := fun _ => Resolve one_ether;
     getCount_reply := fun k => Resolve (Z.of_nat (k / 2));
     increment_reply := fun k =>
       if (k =? 1)%nat then Reject (mkError "nonce too low")
       else Resolve (mkTx "0xa1" (Some 1));
     wait_reply := fun _ => Resolve (mkReceipt 21000 (Some 1));
     Math_random := fun _ => (1 # 2)%Q |}.

(** A node whose receipts report a gas price of zero while the
    transaction was submitted with a gas price of 7. *)
Definition zero_price_world : world :=
  {| ethers_setup := None;
     getBalance_reply := fun _ => Resolve one_ether;
     getCount_reply := fun k => Resolve (Z.of_nat (k / 2));
     increment_reply := fun _ => Resolve (mkTx "0xa1" (Some 7));
     wait_reply := fun _ => Resolve (mkReceipt 21000 (Some 0));
     Math_random := fun _ => (1 # 2)%Q |}.


(** A node whose receipts omit the gas price, for transactions that carry
    none either. *)
Definition priceless_world : world :=
  {| ethers_setup := None;
     getBalance_reply := fun _ => Resolve one_ether;
     getCount_reply := fun k => Resolve (Z.of_nat (k / 2));
     increment_reply := fun _ => Resolve (mkTx "0xa1" None);
     wait_reply := fun _ => Resolve (mkReceipt 21000 None);
     Math_random := fun _ => (1 # 2)%Q |}.

(** An account with no funds. *)
Definition empty_wallet_world : world :=
  {| ethers_setup := None;
     getBalance_reply := fun _ => Resolve 0;
     getCount_reply := fun k => Resolve (Z.of_nat (k / 2));
     increment_reply := fun _ => Resolve (mkTx "0xa1" (Some 1));
     wait_reply := fun _ => Resolve (mkReceipt 21000 (Some 1));
     Math_random := fun _ => (1 # 2)%Q |}.

(** As [steady_world], but the balance read after the loop is rejected. *)
Definition final_balance_lost_world : world :=
  {| ethers_setup := None;
     getBalance_reply := fun k =>
       if (k =? 0)%nat then Resolve one_ether
       else Reject (mkError "ETIMEDOUT");
     getCount_reply := fun k => Resolve (Z.of_nat (k / 2));
     increment_reply := fun _ => Resolve (mkTx "0xa1" (Some 1));
     wait_reply := fun _ => Resolve (mkReceipt 21000 (Some 1));
     Math_random := fun _ => (1 # 2)%Q |}.

(** As [steady_world], but the counter read after the loop (the 102nd
    read of a run of 50 confirmed transactions) is rejected. *)
Definition final_count_lost_world : world :=
  {| ethers_setup := None;
     getBalance_reply := fun _ => Resolve one_ether;
     getCount_reply := fun k =>
       if (k =? 101)%nat then Reject (mkError "ETIMEDOUT")
       else Resolve (Z.of_nat (k / 2));
     increment_reply := fun _ => Resolve (mkTx "0xa1" (Some 1));
     wait_reply := fun _ => Resolve (mkReceipt 21000 (Some 1));
     Math_random := fun _ => (1 # 2)%Q |}.

(** A node that rejects every submission. *)
Definition rejecting_world : world :=
  {| ethers_setup := None;
     getBalance_reply := fun _ => Resolve one_ether;
     getCount_reply := fun _ => Resolve 0;
     increment_reply := fun _ => Reject (mkError "insufficient funds");
     wait_reply := fun _ => Resolve (mkReceipt 21000 (Some 1));
     Math_random := fun _ => (1 # 2)%Q |}.

(** The scenario of three iterations. *)
Definition three_attempts : constants :=
  {| INCREMENT_COUNT := 3; MIN_DELAY := 1000; MAX_DELAY := 3000 |}.


(* ================================================================= *)
(** ** Further vocabulary: requests and draws *)

(** The requests sent to the node in a trace, oldest first. *)
Fixpoint rpcs (evs : list event) : list rpc :=
  match evs with
  | [] => []
  | Rpc c :: rest => c :: rpcs rest
  | _ :: rest => rpcs rest
  end.

(** The requests of one iteration that runs to its end, in order: lines
    87, 92, 95 and 106. *)
Definition attempt_requests : list rpc := [GetCount; Increment; Wait; GetCount].

Definition is_increment (c : rpc) : bool :=
  match c with
  | Increment => true
  | _ => false
  end.

(** How many [increment()] transactions a trace submitted. *)
Definition submissions (evs : list event) : nat :=
  List.length (filter is_increment (rpcs evs)).

(** A timer of the loop: the fixed backoff, or a delay of the range. *)
Definition pause_ok (K : constants) (d : Z) : Prop :=
  d = 5000 \/ MIN_DELAY K <= d <= MAX_DELAY K.

(** The binary64 numbers of [0,1): [m * 2^e] with a significand [m] below
    [2^53] and an exponent from -1074 to -53. *)
Definition unit_double (r : Q) : Prop :=
  exists m e : Z,
    0 <= m < 2 ^ 53 /\ -1074 <= e <= -53 /\
    (r == inject_Z m * Qpow2 e)%Q.

(** [Math.random()] returns a number in [0,1). *)
Definition draws_are_doubles (W : world) : Prop :=
  forall k, unit_double (Math_random W k).

(** The delay bounds are integers a number holds exactly, in order. *)
Definition safe_constants (K : constants) : Prop :=
  0 <= MIN_DELAY K <= MAX_DELAY K /\ MAX_DELAY K < 2 ^ 53.

(** Every call of the iteration is answered and a gas price is found. *)
Definition attempt_succeeds (W : world) (s : state) : Prop :=
  exists c t r p c',
    getCount_reply W (n_getCount s) = Resolve c /\
    increment_reply W (n_increment s) = Resolve t /\
    wait_reply W (n_wait s) = Resolve r /\
    js_or (receipt_gasPrice r) (tx_gasPrice t) = Some p /\
    getCount_reply W (S (n_getCount s)) = Resolve c'.

(** Something in the [try] block of the iteration throws: the counter
    read of line 87, the submission, the wait, the multiplication of
    line 100 or the counter read of line 106. *)
Definition attempt_fails (W : world) (s : state) : Prop :=
  (exists e, getCount_reply W (n_getCount s) = Reject e) \/
  (exists c e,
      getCount_reply W (n_getCount s) = Resolve c /\
      increment_reply W (n_increment s) = Reject e) \/
  (exists c t e,
      getCount_reply W (n_getCount s) = Resolve c /\
      increment_reply W (n_increment s) = Resolve t /\
      wait_reply W (n_wait s) = Reject e) \/
  (exists c t r,
      getCount_reply W (n_getCount s) = Resolve c /\
      increment_reply W (n_increment s) = Resolve t /\
      wait_reply W (n_wait s) = Resolve r /\
      js_or (receipt_gasPrice r) (tx_gasPrice t) = None) \/
  (exists c t r p e,
      getCount_reply W (n_getCount s) = Resolve c /\
      increment_reply W (n_increment s) = Resolve t /\
      wait_reply W (n_wait s) = Resolve r /\
      js_or (receipt_gasPrice r) (tx_gasPrice t) = Some p /\
      getCount_reply W (S (n_getCount s)) = Reject e).

(** Every read of the counter and of the balance is answered. *)
Definition reads_answered (W : world) : Prop :=
  (forall k, exists c, getCount_reply W k = Resolve c) /\
  (forall k, exists b, getBalance_reply W k = Resolve b).

(** Every submission is accepted and confirmed, with a gas price to be
    found for the cost. *)
Definition submissions_confirmed (W : world) : Prop :=
  forall k k', exists t r p,
    increment_reply W k = Resolve t /\
    wait_reply W k' = Resolve r /\
    js_or (receipt_gasPrice r) (tx_gasPrice t) = Some p.

(** As [steady_world], but [Math.random()] alternates between 0 and
    1023/1024. *)
Definition alternating_draw_world : world :=
  {| ethers_setup := None;
     getBalance_reply := fun _ => Resolve one_ether;
     getCount_reply := fun k => Resolve (Z.of_nat (k / 2));
     increment_reply := fun _ => Resolve (mkTx "0xa1" (Some 1));
     wait_reply := fun _ => Resolve (mkReceipt 21000 (Some 1));
     Math_random := fun k => if Nat.even k then 0%Q else (1023 # 1024)%Q |}.

(** As [steady_world], but the first read of the counter is rejected. *)
Definition first_count_lost_world : world :=
  {| ethers_setup := None;
     getBalance_reply := fun _ => Resolve one_ether;
     getCount_reply := fun k =>
       if (k =? 0)%nat then Reject (mkError "ECONNREFUSED")
       else Resolve (Z.of_nat (k / 2));
     increment_reply := fun _ => Resolve (mkTx "0xa1" (Some 1));
     wait_reply := fun _ => Resolve (mkReceipt 21000 (Some 1));
     Math_random := fun _ => (1 # 2)%Q |}.

Definition env_no_address : env :=
  {| PRIVATE_KEY := Some "0x59c6"%string;
     SEPOLIA_RPC_URL := Some EmptyString;
     COUNTER_ADDRESS := None |}.

(* ================================================================= *)
(** ** The deployment script [krnl-setup.sh]

    The script runs under [set -e]: the shell exits with the status of the
    first command that fails, except in the condition of an [if].  The
    commands it launches and the files it tests belong to the outside: a
    [shell_world] gives the status of each command and the result of each
    test.  [echo] is taken to succeed. *)

Inductive command :=
| SourceEnv        (* source .env *)
| NpmInstall       (* npm install -g @krnl-dev/krnl-cli *)
| KrnlInit         (* krnl init *)
| KrnlCompile      (* krnl compile *)
| ReadEnter        (* read -p "Press Enter to continue with deployment..." *)
| KrnlDeploy.      (* krnl deploy --network sepolia ... --verify *)

Definition command_eqb (a b : command) : bool :=
  match a, b with
  | SourceEnv, SourceEnv | NpmInstall, NpmInstall | KrnlInit, KrnlInit
  | KrnlCompile, KrnlCompile | ReadEnter, ReadEnter
  | KrnlDeploy, KrnlDeploy => true
  | _, _ => false
  end.

Record shell_world := mkShell {
  env_file_exists : bool;        (* [ -f .env ] *)
  krnl_on_path : bool;           (* command -v krnl *)
  foundry_toml_exists : bool;    (* [ -f "foundry.toml" ] *)
  status_of : command -> Z       (* exit status, 0 for success *)
}.

Inductive sh_event :=
| Echo (text : string)
| Launch (c : command).

(** A fragment of the script: from the trace so far to the trace after it
    and, when the shell has exited, its status. *)
Definition sh : Type := list sh_event -> option Z * list sh_event.

Definition sh_seq (a b : sh) : sh :=
  fun tr =>
    match a tr with
    | (None, tr') => b tr'
    | (Some status, tr') => (Some status, tr')
    end.

Notation "a ;;; b" := (sh_seq a b) (at level 62, right associativity).

Definition echo (text : string) : sh := fun tr => (None, tr ++ [Echo text]).

Definition sh_exit (status : Z) : sh := fun tr => (Some status, tr).

(** A simple command under [set -e]. *)
Definition launch (w : shell_world) (c : command) : sh :=
  fun tr =>
    if status_of w c =? 0 then (None, tr ++ [Launch c])
    else (Some (status_of w c), tr ++ [Launch c]).

Definition krnl_setup (w : shell_world) : sh :=
  echo "🚀 KRNL Counter Test - Setup and Deploy" ;;;
  echo "========================================" ;;;
  (if negb (env_file_exists w) then
     echo "❌ Error: .env file not found!" ;;;
     echo "Please create .env file with PRIVATE_KEY and SEPOLIA_RPC_URL" ;;;
     echo "Use .env.example as template" ;;;
     sh_exit 1
   else launch w SourceEnv) ;;;
  (if negb (krnl_on_path w) then
     echo "📦 Installing KRNL CLI..." ;;;
     launch w NpmInstall
   else echo "✅ KRNL CLI already installed") ;;;
  (if negb (foundry_toml_exists w) then
     echo "🔧 Initializing KRNL project..." ;;;
     launch w KrnlInit
   else echo "✅ Project already initialized") ;;;
  echo "🔨 Compiling contracts..." ;;;
  launch w KrnlCompile ;;;
  echo "🚀 Deploying Counter contract to Sepolia..." ;;;
  echo "⚠️  Make sure you have Sepolia ETH in your wallet!" ;;;
  launch w ReadEnter ;;;
  launch w KrnlDeploy ;;;
  echo EmptyString ;;;
  echo "✅ Deployment complete!" ;;;
  echo "📝 Check the output above for the deployed contract address" ;;;
  echo "🔍 Contract should be verified on Sepolia Etherscan" ;;;
  echo EmptyString ;;;
  echo "Next steps:" ;;;
  echo "1. Copy the deployed contract address" ;;;
  echo "2. Update COUNTER_ADDRESS in .env" ;;;
  echo "3. Run: node counter-interact.js".

(** The status the shell ends with and the trace it leaves; a script that
    runs to its end returns the status of its last command, an [echo]. *)
Definition krnl_setup_run (w : shell_world) : Z * list sh_event :=
  match krnl_setup w [] with
  | (Some status, tr) => (status, tr)
  | (None, tr) => (0, tr)
  end.

Definition launched (c : command) (tr : list sh_event) : bool :=
  existsb (fun e => match e with
                    | Launch c' => command_eqb c c'
                    | Echo _ => false
                    end) tr.

Definition launches (tr : list sh_event) : list command :=
  flat_map (fun e => match e with
                     | Launch c => [c]
                     | Echo _ => []
                     end) tr.

(** A machine with nothing prepared on which every command succeeds. *)
Definition fresh_machine : shell_world :=
  {| env_file_exists := true; krnl_on_path := false;
     foundry_toml_exists := false; status_of := fun _ => 0 |}.

(** A prepared machine where the contracts do not compile. *)
Definition broken_contract_machine : shell_world :=
  {| env_file_exists := true; krnl_on_path := true;
     foundry_toml_exists := true;
     status_of := fun c => match c with KrnlCompile => 1 | _ => 0 end |}.


(* ================================================================= *)
(** ** One iteration *)


Ltac split_reply :=
  match goal with
  | |- context [match getCount_reply ?w ?n with _ => _ end] =>
      destruct (getCount_reply w n) eqn:?
  | |- context [match increment_reply ?w ?n with _ => _ end] =>
      destruct (increment_reply w n) eqn:?
  | |- context [match wait_reply ?w ?n with _ => _ end] =>
      destruct (wait_reply w n) eqn:?
  | |- context [match js_or ?a ?b with _ => _ end] =>
      destruct (js_or a b) eqn:?
  end; cbn.

(** Runs [attempt] symbolically: one goal per way the replies can go. *)
Ltac run_attempt :=
  unfold exec, result, attempt, path_of;
  match goal with
  | |- context [Nat.ltb ?a ?b] => destruct (Nat.ltb a b) eqn:?
  end;
  unfold try_catch, bind, contract_getCount, contract_increment, tx_wait,
    bigint_mul, await, throw, ret; cbn;
  repeat split_reply;
  try congruence.

Section Attempt.

Variable K : constants.
Variable W : world.

Lemma attempt_returns (i : nat) (s : state) :
  result (attempt K W i) s = Ret tt.
Proof. run_attempt. Qed.

(** The four statistics after one iteration, by path. *)
Lemma attempt_stats (i : nat) (s : state) :
  let s' := exec (attempt K W i) s in
  match path_of W s with
  | Succeeded r p =>
      successCount s' = successCount s + 1 /\
      failCount s' = failCount s /\
      totalGasUsed s' = totalGasUsed s + receipt_gasUsed r /\
      totalGasCost s' = totalGasCost s + receipt_gasUsed r * p
  | FailedPostRead r p _ =>
      successCount s' = successCount s /\
      failCount s' = failCount s + 1 /\
      totalGasUsed s' = totalGasUsed s + receipt_gasUsed r /\
      totalGasCost s' = totalGasCost s + receipt_gasUsed r * p
  | _ =>
      successCount s' = successCount s /\
      failCount s' = failCount s + 1 /\
      totalGasUsed s' = totalGasUsed s /\
      totalGasCost s' = totalGasCost s
  end.
Proof. run_attempt; auto. Qed.

Lemma attempt_one_counter (i : nat) (s : state) :
  let s' := exec (attempt K W i) s in
  (successCount s' = successCount s + 1 /\ failCount s' = failCount s) \/
  (successCount s' = successCount s /\ failCount s' = failCount s + 1).
Proof.
  pose proof (attempt_stats i s) as H; cbn zeta in *.
  destruct (path_of W s); intuition.
Qed.

(** The timers one iteration sets, by path. *)
Lemma attempt_sleeps (i : nat) (s : state) :
  exists new,
    events (exec (attempt K W i) s) = events s ++ new /\
    slept new =
      match path_of W s with
      | Succeeded _ _ =>
          if (i <? INCREMENT_COUNT K)%nat
          then [delay_of K (Math_random W (S (n_random s)))]
          else []
      | _ => [5000]
      end.
Proof.
  run_attempt;
    repeat rewrite <- app_assoc; cbn;
    eexists; (split; [reflexivity | reflexivity]).
Qed.

(** The loop is the iterations run in order of index. *)
Lemma attempts_from_fold (k i : nat) (s : state) :
  attempts_from K W k i s =
    (Ret tt, fold_left (fun st j => exec (attempt K W j) st) (seq i k) s).
Proof.
  revert i s; induction k as [|k IH]; intros i s; cbn.
  - reflexivity.
  - unfold bind.
    pose proof (attempt_returns i s) as R. unfold result in R.
    unfold exec at 2.
    destruct (attempt K W i s) as [o s1]; cbn in *; subst o.
    apply IH.
Qed.

Lemma attempts_from_step (k i : nat) (s : state) :
  exec (attempts_from K W (S k) i) s =
    exec (attempts_from K W k (S i)) (exec (attempt K W i) s).
Proof. unfold exec. now rewrite !attempts_from_fold. Qed.

Lemma attempts_from_counts (k i : nat) (s : state) :
  let s' := exec (attempts_from K W k i) s in
  successCount s' + failCount s' =
    successCount s + failCount s + Z.of_nat k.
Proof.
  revert i s; induction k as [|k IH]; intros i s.
  - cbn. lia.
  - cbn zeta. rewrite attempts_from_step.
    specialize (IH (S i) (exec (attempt K W i) s)). cbn zeta in IH.
    pose proof (attempt_one_counter i s) as H; cbn zeta in H. lia.
Qed.

Lemma js_or_unsigned (a b : option Z) (p : Z) :
  (forall q, a = Some q -> 0 <= q) ->
  (forall q, b = Some q -> 0 <= q) ->
  js_or a b = Some p -> 0 <= p.
Proof.
  intros Ha Hb. unfold js_or, js_falsy.
  destruct a as [q|]; [destruct (q =? 0)|]; intros H; auto.
Qed.

(** Neither total ever goes down, whatever the iteration does. *)
Lemma attempt_totals_monotone (i : nat) (s : state) :
  unsigned_replies W ->
  totalGasUsed s <= totalGasUsed (exec (attempt K W i) s) /\
  totalGasCost s <= totalGasCost (exec (attempt K W i) s).
Proof.
  intros [Hr Ht].
  assert (G : forall r p, path_of W s = Succeeded r p \/
                          (exists e, path_of W s = FailedPostRead r p e) ->
                          0 <= receipt_gasUsed r /\ 0 <= p).
  { intros r p. unfold path_of.
    destruct (getCount_reply W (n_getCount s)); [|intros [?|[? ?]]; discriminate].
    destruct (increment_reply W (n_increment s)) as [t|] eqn:Et;
      [|intros [?|[? ?]]; discriminate].
    destruct (wait_reply W (n_wait s)) as [r0|] eqn:Er;
      [|intros [?|[? ?]]; discriminate].
    destruct (js_or _ _) as [p0|] eqn:Ep; [|intros [?|[? ?]]; discriminate].
    destruct (Hr _ _ Er) as [Hu Hp].
    assert (Hp0 : 0 <= p0)
      by (eapply js_or_unsigned; [exact Hp | exact (fun q => Ht _ _ q Et) | exact Ep]).
    destruct (getCount_reply W (S (n_getCount s)));
      intros [Q|[e' Q]]; inversion Q; subst; auto. }
  pose proof (attempt_stats i s) as H; cbn zeta in H.
  destruct (path_of W s) as [e|e|e|r|r p e|r p] eqn:P; try lia.
  - destruct (G r p) as [? ?]; [right; eauto|]. nia.
  - destruct (G r p) as [? ?]; [left; eauto|]. nia.
Qed.

Lemma attempts_from_totals_monotone (k i : nat) (s : state) :
  unsigned_replies W ->
  totalGasUsed s <= totalGasUsed (exec (attempts_from K W k i) s) /\
  totalGasCost s <= totalGasCost (exec (attempts_from K W k i) s).
Proof.
  intros U. revert i s; induction k as [|k IH]; intros i s.
  - cbn. lia.
  - rewrite attempts_from_step.
    pose proof (attempt_totals_monotone i s U).
    pose proof (IH (S i) (exec (attempt K W i) s)). lia.
Qed.

(** Before the receipt is in hand nothing is added to the totals. *)
Lemma attempt_totals_kept_without_receipt (i : nat) (s : state) :
  (forall r, wait_reply W (n_wait s) <> Resolve r) ->
  totalGasUsed (exec (attempt K W i) s) = totalGasUsed s /\
  totalGasCost (exec (attempt K W i) s) = totalGasCost s.
Proof.
  intros N. pose proof (attempt_stats i s) as H; cbn zeta in H.
  revert H. unfold path_of.
  destruct (getCount_reply W (n_getCount s)); [|tauto].
  destruct (increment_reply W (n_increment s)); [|tauto].
  destruct (wait_reply W (n_wait s)) as [r|]; [|tauto].
  now destruct (N r).
Qed.

End Attempt.

(* ================================================================= *)
(** ** Success and failure of an iteration, by its replies *)

Section Verdict.

Variable K : constants.
Variable W : world.

Lemma attempt_succeeds_path (s : state) :
  attempt_succeeds W s -> exists r p, path_of W s = Succeeded r p.
Proof.
  intros [c [t [r [p [c' [Hc [Ht [Hr [Hp Hc']]]]]]]]].
  unfold path_of. rewrite Hc, Ht, Hr, Hp, Hc'. eauto.
Qed.

(** A failing iteration, its path and the message of the error thrown. *)
Lemma attempt_fails_path (s : state) :
  attempt_fails W s ->
  (exists e, path_of W s = FailedRead e) \/
  (exists e, path_of W s = FailedSubmit e) \/
  (exists e, path_of W s = FailedWait e) \/
  (exists r, path_of W s = FailedCost r) \/
  (exists r p e, path_of W s = FailedPostRead r p e).
Proof.
  unfold path_of.
  intros [[e Hc]
         |[[c [e [Hc Ht]]]
          |[[c [t [e [Hc [Ht Hr]]]]]
           |[[c [t [r [Hc [Ht [Hr Hp]]]]]]
            |[c [t [r [p [e [Hc [Ht [Hr [Hp Hc']]]]]]]]]]]]].
  - rewrite Hc. left. eauto.
  - rewrite Hc, Ht. right; left. eauto.
  - rewrite Hc, Ht, Hr. right; right; left. eauto.
  - rewrite Hc, Ht, Hr, Hp. right; right; right; left. eauto.
  - rewrite Hc, Ht, Hr, Hp, Hc'. right; right; right; right. eauto.
Qed.

(** Every iteration is one or the other. *)
Lemma attempt_succeeds_or_fails (s : state) :
  attempt_succeeds W s \/ attempt_fails W s.
Proof.
  unfold attempt_succeeds, attempt_fails.
  destruct (getCount_reply W (n_getCount s)) as [c|e] eqn:Hc;
    [|right; left; eauto].
  destruct (increment_reply W (n_increment s)) as [t|e] eqn:Ht;
    [|right; right; left; eauto].
  destruct (wait_reply W (n_wait s)) as [r|e] eqn:Hr;
    [|right; right; right; left; eauto 6].
  destruct (js_or (receipt_gasPrice r) (tx_gasPrice t)) as [p|] eqn:Hp;
    [|right; right; right; right; left; eauto 8].
  destruct (getCount_reply W (S (n_getCount s))) as [c'|e] eqn:Hc'.
  - left. exists c, t, r, p, c'. auto.
  - right; right; right; right; right. exists c, t, r, p, e. auto.
Qed.

(** A failing iteration counts one failure and no success. *)
Lemma attempt_fails_counted (i : nat) (s : state) :
  attempt_fails W s ->
  failCount (exec (attempt K W i) s) = failCount s + 1 /\
  successCount (exec (attempt K W i) s) = successCount s.
Proof.
  intros F. pose proof (attempt_stats K W i s) as St; cbn zeta in St.
  destruct (attempt_fails_path s F)
    as [[e P]|[[e P]|[[e P]|[[r P]|[r [p [e P]]]]]]];
    rewrite P in St; tauto.
Qed.

(** The error caught late in an iteration is printed too. *)
Lemma attempt_late_error_logged (i : nat) (s : state) :
  exists new,
    events (exec (attempt K W i) s) = events s ++ new /\
    match path_of W s with
    | FailedCost _ => In (LogError (L_error (message TypeError_mix))) new
    | FailedPostRead _ _ e => In (LogError (L_error (message e))) new
    | _ => True
    end.
Proof.
  run_attempt;
    repeat rewrite <- app_assoc; cbn;
    eexists;
    (split;
     [reflexivity
     |cbn;
      try match goal with
        | H : Reject _ = Reject _ |- _ => injection H as ->
        end;
      tauto]).
Qed.

(** After a failing iteration the only timer is the fixed backoff. *)
Lemma attempt_fails_sleeps (i : nat) (s : state) :
  attempt_fails W s ->
  exists new,
    events (exec (attempt K W i) s) = events s ++ new /\
    slept new = [5000].
Proof.
  intros F. destruct (attempt_sleeps K W i s) as [new [Ev Sl]].
  exists new. split; [exact Ev|].
  destruct (attempt_fails_path s F)
    as [[e P]|[[e P]|[[e P]|[[r P]|[r [p [e P]]]]]]];
    now rewrite P in Sl.
Qed.

End Verdict.

(* ================================================================= *)
(** ** The loop and its counters *)

Section Loop.

Variable K : constants.
Variable W : world.

Lemma path_of_confirmed (s : state) (c : Z) (t : tx_response)
      (r : tx_receipt) :
  getCount_reply W (n_getCount s) = Resolve c ->
  increment_reply W (n_increment s) = Resolve t ->
  wait_reply W (n_wait s) = Resolve r ->
  path_of W s =
    match js_or (receipt_gasPrice r) (tx_gasPrice t) with
    | None => FailedCost r
    | Some p =>
        match getCount_reply W (S (n_getCount s)) with
        | Reject e => FailedPostRead r p e
        | Resolve _ => Succeeded r p
        end
    end.
Proof. intros Hc Ht Hr. unfold path_of. now rewrite Hc, Ht, Hr. Qed.

(** The error caught in an iteration is the one printed. *)
Lemma attempt_error_logged (i : nat) (s : state) (e : js_error) :
  path_of W s = FailedRead e \/ path_of W s = FailedSubmit e \/
  path_of W s = FailedWait e ->
  exists new,
    events (exec (attempt K W i) s) = events s ++ new /\
    In (LogError (L_error (message e))) new.
Proof.
  run_attempt; intros [H|[H|H]]; inversion H; subst;
    repeat rewrite <- app_assoc; cbn;
    eexists; (split; [reflexivity | cbn; tauto]).
Qed.

(** C1.  Every iteration returns normally and adds one to exactly one of
    [successCount] and [failCount]; hence after any number [k] of
    iterations the two counters have grown by [k] together, and at the end
    of the loop of [main], which starts from 0 and 0, they add up to
    [INCREMENT_COUNT]. *)
Theorem counters_add_up_to_attempts :
  (forall i s,
      let s' := exec (attempt K W i) s in
      result (attempt K W i) s = Ret tt /\
      ((successCount s' = successCount s + 1 /\
        failCount s' = failCount s) \/
       (successCount s' = successCount s /\
        failCount s' = failCount s + 1))) /\
  (forall k i s,
      let s' := exec (attempts_from K W k i) s in
      result (attempts_from K W k i) s = Ret tt /\
      successCount s' + failCount s' =
        successCount s + failCount s + Z.of_nat k) /\
  (forall s,
      let from_line_75 :=
        set_stats 0 0 0 0 ;;
        console_log L_starting ;;
        console_log L_blank ;;
        attempt_loop K W in
      let s' := exec from_line_75 s in
      result from_line_75 s = Ret tt /\
      successCount s' + failCount s' = Z.of_nat (INCREMENT_COUNT K)).
Proof.
  split; [|split].
  - intros i s s'. split.
    + apply attempt_returns.
    + apply attempt_one_counter.
  - intros k i s s'. split.
    + unfold result. now rewrite attempts_from_fold.
    + apply attempts_from_counts.
  - intros s from_line_75 s'. subst s' from_line_75.
    unfold exec, result, bind, attempt_loop; cbn.
    rewrite attempts_from_fold; cbn. split; [reflexivity|].
    match goal with
    | |- context [fold_left _ _ ?s0] =>
        pose proof (attempts_from_counts K W (INCREMENT_COUNT K) 1 s0) as H
    end.
    cbn zeta in H. unfold exec in H. rewrite attempts_from_fold in H.
    cbn in H. lia.
Qed.

(** C4.  An iteration never ends in a thrown error or an exit.  When the
    counter read, the submission or the confirmation wait rejects with
    [e], that iteration prints [e.message], counts one failure and no
    success and leaves the gas totals alone.  The same holds of the
    [TypeError] of line 100 when no gas price is found, and a rejection of
    the counter read of line 106 is printed and counted as one failure and
    no success as well.  Every iteration succeeds or fails in one of these
    ways, and a failing one always counts exactly one failure.  The loop
    returns normally and is the [INCREMENT_COUNT] iterations run in order:
    none is skipped and none cuts the loop short. *)
Theorem attempt_errors_are_absorbed :
  (forall i s, result (attempt K W i) s = Ret tt) /\
  (forall i s e,
      (getCount_reply W (n_getCount s) = Reject e \/
       (exists c,
           getCount_reply W (n_getCount s) = Resolve c /\
           increment_reply W (n_increment s) = Reject e) \/
       (exists c t,
           getCount_reply W (n_getCount s) = Resolve c /\
           increment_reply W (n_increment s) = Resolve t /\
           wait_reply W (n_wait s) = Reject e)) ->
      let s' := exec (attempt K W i) s in
      failCount s' = failCount s + 1 /\
      successCount s' = successCount s /\
      totalGasUsed s' = totalGasUsed s /\
      totalGasCost s' = totalGasCost s /\
      exists new,
        events s' = events s ++ new /\
        In (LogError (L_error (message e))) new) /\
  (forall s,
      attempt_loop K W s =
        (Ret tt,
         fold_left (fun st i => exec (attempt K W i) st)
                   (seq 1 (INCREMENT_COUNT K)) s)) /\
  (forall i s c t r,
      getCount_reply W (n_getCount s) = Resolve c ->
      increment_reply W (n_increment s) = Resolve t ->
      wait_reply W (n_wait s) = Resolve r ->
      js_or (receipt_gasPrice r) (tx_gasPrice t) = None ->
      let s' := exec (attempt K W i) s in
      failCount s' = failCount s + 1 /\
      successCount s' = successCount s /\
      totalGasUsed s' = totalGasUsed s /\
      totalGasCost s' = totalGasCost s /\
      exists new,
        events s' = events s ++ new /\
        In (LogError (L_error (message TypeError_mix))) new) /\
  (forall i s c t r p e,
      getCount_reply W (n_getCount s) = Resolve c ->
      increment_reply W (n_increment s) = Resolve t ->
      wait_reply W (n_wait s) = Resolve r ->
      js_or (receipt_gasPrice r) (tx_gasPrice t) = Some p ->
      getCount_reply W (S (n_getCount s)) = Reject e ->
      let s' := exec (attempt K W i) s in
      failCount s' = failCount s + 1 /\
      successCount s' = successCount s /\
      exists new,
        events s' = events s ++ new /\
        In (LogError (L_error (message e))) new) /\
  (forall i s,
      (attempt_succeeds W s \/ attempt_fails W s) /\
      (attempt_fails W s ->
       failCount (exec (attempt K W i) s) = failCount s + 1 /\
       successCount (exec (attempt K W i) s) = successCount s)).
Proof.
  split; [|split; [|split; [|split; [|split]]]].
  - apply attempt_returns.
  - intros i s e H s'.
    assert (P : path_of W s = FailedRead e \/ path_of W s = FailedSubmit e \/
                path_of W s = FailedWait e).
    { unfold path_of.
      destruct H as [H|[[c [Hc H]]|[c [t [Hc [Ht H]]]]]].
      - rewrite H. now left.
      - rewrite Hc, H. right; now left.
      - rewrite Hc, Ht, H. right; now right. }
    pose proof (attempt_stats K W i s) as S; cbn zeta in S.
    pose proof (attempt_error_logged i s e P) as L.
    subst s'.
    destruct P as [P|[P|P]]; rewrite P in S; intuition.
  - intros s. apply attempts_from_fold.
  - intros i s c t r Hc Ht Hr Hp s'. subst s'.
    assert (P : path_of W s = FailedCost r)
      by (unfold path_of; now rewrite Hc, Ht, Hr, Hp).
    pose proof (attempt_stats K W i s) as St; cbn zeta in St.
    destruct (attempt_late_error_logged K W i s) as [new [Ev L]].
    rewrite P in St, L. intuition eauto.
  - intros i s c t r p e Hc Ht Hr Hp Hc' s'. subst s'.
    assert (P : path_of W s = FailedPostRead r p e)
      by (unfold path_of; now rewrite Hc, Ht, Hr, Hp, Hc').
    pose proof (attempt_stats K W i s) as St; cbn zeta in St.
    destruct (attempt_late_error_logged K W i s) as [new [Ev L]].
    rewrite P in St, L. intuition eauto.
  - intros i s. split.
    + apply attempt_succeeds_or_fails.
    + apply attempt_fails_counted.
Qed.

End Loop.

(* ================================================================= *)
(** ** Gas accounting *)

Section Accounting.

Variable K : constants.
Variable W : world.

(** Once the receipt is in hand and a gas price is found, both totals
    are increased, whatever the rest of the iteration does. *)
Lemma attempt_adds_gas (i : nat) (s : state) (c : Z) (t : tx_response)
      (r : tx_receipt) (p : Z) :
  getCount_reply W (n_getCount s) = Resolve c ->
  increment_reply W (n_increment s) = Resolve t ->
  wait_reply W (n_wait s) = Resolve r ->
  js_or (receipt_gasPrice r) (tx_gasPrice t) = Some p ->
  totalGasUsed (exec (attempt K W i) s) =
    totalGasUsed s + receipt_gasUsed r /\
  totalGasCost (exec (attempt K W i) s) =
    totalGasCost s + receipt_gasUsed r * p.
Proof.
  intros Hc Ht Hr Hp.
  pose proof (attempt_stats K W i s) as St; cbn zeta in St.
  rewrite (path_of_confirmed W s c t r Hc Ht Hr), Hp in St.
  destruct (getCount_reply W (S (n_getCount s))); tauto.
Qed.

(** C3, amended.  When the transaction of an iteration is confirmed, a
    gas price is found (the receipt's, else the transaction's) and the
    counter read that follows the confirmation succeeds, the iteration
    adds [gasUsed] and [gasUsed * gasPrice] to the totals and counts one
    success and no failure. *)
Theorem confirmed_and_reread_is_success
        (i : nat) (s : state) (c c' : Z) (t : tx_response)
        (r : tx_receipt) (p : Z) :
  getCount_reply W (n_getCount s) = Resolve c ->
  increment_reply W (n_increment s) = Resolve t ->
  wait_reply W (n_wait s) = Resolve r ->
  js_or (receipt_gasPrice r) (tx_gasPrice t) = Some p ->
  getCount_reply W (S (n_getCount s)) = Resolve c' ->
  let s' := exec (attempt K W i) s in
  totalGasUsed s' = totalGasUsed s + receipt_gasUsed r /\
  totalGasCost s' = totalGasCost s + receipt_gasUsed r * p /\
  successCount s' = successCount s + 1 /\
  failCount s' = failCount s.
Proof.
  intros Hc Ht Hr Hp Hc' s'. subst s'.
  pose proof (attempt_stats K W i s) as St; cbn zeta in St.
  rewrite (path_of_confirmed W s c t r Hc Ht Hr), Hp, Hc' in St.
  tauto.
Qed.


(** C9.  The fallback tests falsiness: a receipt whose gas price is zero
    sends the cost computation to the gas price of the transaction, just
    as a receipt without a gas price does, and the cost added is
    [gasUsed] times the transaction's price. *)
Theorem zero_receipt_price_falls_back
        (i : nat) (s : state) (c : Z) (t : tx_response) (r : tx_receipt)
        (q : Z) :
  getCount_reply W (n_getCount s) = Resolve c ->
  increment_reply W (n_increment s) = Resolve t ->
  wait_reply W (n_wait s) = Resolve r ->
  tx_gasPrice t = Some q ->
  let s' := exec (attempt K W i) s in
  (receipt_gasPrice r = Some 0 ->
   js_or (receipt_gasPrice r) (tx_gasPrice t) = Some q /\
   totalGasCost s' = totalGasCost s + receipt_gasUsed r * q) /\
  (receipt_gasPrice r = None ->
   js_or (receipt_gasPrice r) (tx_gasPrice t) = Some q /\
   totalGasCost s' = totalGasCost s + receipt_gasUsed r * q).
Proof.
  intros Hc Ht Hr Hq s'. subst s'.
  split; intros Hz;
    (assert (P : js_or (receipt_gasPrice r) (tx_gasPrice t) = Some q)
      by (rewrite Hz; cbn; exact Hq));
    (split; [exact P|]);
    apply (attempt_adds_gas i s c t r q Hc Ht Hr P).
Qed.

End Accounting.


(* ================================================================= *)
(** ** Rounding to binary64 *)

Lemma Qpow2_pos (e : Z) : (0 < Qpow2 e)%Q.
Proof. apply Qpower_0_lt. reflexivity. Qed.

Lemma Qpow2_add (a b : Z) : (Qpow2 (a + b) == Qpow2 a * Qpow2 b)%Q.
Proof. apply Qpower_plus. discriminate. Qed.

Lemma Qpow2_Z (e : Z) : 0 <= e -> (Qpow2 e == inject_Z (2 ^ e))%Q.
Proof. intros H. unfold Qpow2. now rewrite Zpower_Qpower. Qed.

Lemma Qpow2_le (a b : Z) : a <= b -> (Qpow2 a <= Qpow2 b)%Q.
Proof. intros H. apply Qpower_le_compat_l; [exact H | discriminate]. Qed.

Lemma Qpow2_lt_inv (a b : Z) : (Qpow2 a < Qpow2 b)%Q -> a < b.
Proof. intros H. apply (Qpower_lt_compat_l_inv _ _ _ H). reflexivity. Qed.

Lemma Qpow2_inv (e : Z) : (Qpow2 e * Qpow2 (- e) == 1)%Q.
Proof. rewrite <- Qpow2_add. now rewrite Z.add_opp_diag_r. Qed.

(** [binade x] is the exponent of the binade of [x]. *)
Lemma binade_spec (x : Q) :
  (0 < x)%Q -> (Qpow2 (binade x) <= x /\ x < Qpow2 (binade x + 1))%Q.
Proof.
  intros Pos. unfold binade.
  destruct x as [n d]. cbn [Qnum Qden].
  assert (Hn : 0 < n) by (unfold Qlt in Pos; cbn in Pos; lia).
  set (a := Z.log2 n). set (b := Z.log2 (Z.pos d)).
  assert (Ha : 0 <= a) by apply Z.log2_nonneg.
  assert (Hb : 0 <= b) by apply Z.log2_nonneg.
  destruct (Z.log2_spec n Hn) as [La Ua]. fold a in La, Ua.
  destruct (Z.log2_spec (Z.pos d) (Pos2Z.is_pos d)) as [Lb Ub].
  fold b in Lb, Ub.
  assert (Pa : 0 < 2 ^ a) by (apply Z.pow_pos_nonneg; lia).
  assert (Pb : 0 < 2 ^ b) by (apply Z.pow_pos_nonneg; lia).
  rewrite Z.pow_succ_r in Ua, Ub by assumption.
  (* the two outer bounds, from the bounds of the logarithms *)
  assert (Lo : (Qpow2 (a - b - 1) <= n # d)%Q).
  { apply (Qmult_le_r _ _ (Qpow2 (b + 1))); [apply Qpow2_pos|].
    rewrite <- Qpow2_add.
    replace (a - b - 1 + (b + 1)) with a by lia.
    rewrite !Qpow2_Z by lia.
    rewrite Z.pow_add_r by lia. change (2 ^ 1) with 2.
    unfold Qle, Qmult, inject_Z; cbn [Qnum Qden].
    rewrite Pos.mul_1_r. nia. }
  assert (Hi : (n # d < Qpow2 (a - b + 1))%Q).
  { apply (Qmult_lt_r _ _ (Qpow2 b)); [apply Qpow2_pos|].
    rewrite <- Qpow2_add.
    replace (a - b + 1 + b) with (a + 1) by lia.
    rewrite !Qpow2_Z by lia.
    rewrite Z.pow_add_r by lia. change (2 ^ 1) with 2.
    unfold Qlt, Qmult, inject_Z; cbn [Qnum Qden].
    rewrite Pos.mul_1_r. nia. }
  destruct (Qle_bool (Qpow2 (a - b)) (n # d)) eqn:T.
  - apply Qle_bool_iff in T. split; assumption.
  - split; [exact Lo|].
    replace (a - b - 1 + 1) with (a - b) by lia.
    apply Qnot_le_lt. intros C. apply Qle_bool_iff in C. congruence.
Qed.

Lemma round_half_even_floor (y : Q) :
  Qfloor y <= round_half_even y <= Qfloor y + 1.
Proof.
  unfold round_half_even.
  destruct (y - inject_Z (Qfloor y) ?= 1 # 2)%Q; [destruct (Z.even _)| |]; lia.
Qed.

Lemma round_half_even_near (y : Q) :
  (inject_Z (round_half_even y) <= y + (1 # 2))%Q.
Proof.
  unfold round_half_even.
  pose proof (Qfloor_le y) as F.
  destruct (Qcompare_spec (y - inject_Z (Qfloor y)) (1 # 2)) as [E|L|G].
  - destruct (Z.even _); [lra|].
    rewrite inject_Z_plus. change (inject_Z 1) with 1%Q. lra.
  - lra.
  - rewrite inject_Z_plus. change (inject_Z 1) with 1%Q. lra.
Qed.

Lemma round_half_even_ge (y : Q) (k : Z) :
  (inject_Z k <= y)%Q -> k <= round_half_even y.
Proof.
  intros H. pose proof (round_half_even_floor y).
  apply Qfloor_resp_le in H. rewrite Qfloor_Z in H. lia.
Qed.

Lemma round_half_even_le (y : Q) (k : Z) :
  (y <= inject_Z k)%Q -> round_half_even y <= k.
Proof.
  intros H. unfold round_half_even.
  pose proof (Qfloor_le y) as F.
  assert (Fk : Qfloor y <= k).
  { apply Qfloor_resp_le in H. now rewrite Qfloor_Z in H. }
  assert (Up : (inject_Z (Qfloor y) < y)%Q -> Qfloor y + 1 <= k).
  { intros Lt. assert (inject_Z (Qfloor y) < inject_Z k)%Q by lra.
    rewrite <- Zlt_Qlt in H0. lia. }
  destruct (Qcompare_spec (y - inject_Z (Qfloor y)) (1 # 2)) as [E|L|G].
  - destruct (Z.even _); [exact Fk|]. apply Up. lra.
  - exact Fk.
  - apply Up. lra.
Qed.

Lemma round_double_pos (x : Q) :
  (0 < x)%Q ->
  round_double x =
    (inject_Z (round_half_even
                 (x / Qpow2 (Z.max (binade x - 52) (-1074))))
     * Qpow2 (Z.max (binade x - 52) (-1074)))%Q.
Proof.
  intros Pos. unfold round_double.
  apply Qgt_alt in Pos. now rewrite Pos.
Qed.

Lemma round_double_zero (x : Q) : (x == 0)%Q -> round_double x = 0%Q.
Proof. intros Z0. unfold round_double. apply Qeq_alt in Z0. now rewrite Z0. Qed.

(** Below [2^53] the unit of the last place is at most 1. *)
Lemma ulp_exponent_le_0 (x : Q) :
  (0 < x)%Q -> (x < Qpow2 53)%Q -> Z.max (binade x - 52) (-1074) <= 0.
Proof.
  intros Pos Lt. destruct (binade_spec x Pos) as [Lo _].
  assert (binade x < 53) by (apply Qpow2_lt_inv; lra). lia.
Qed.

Lemma div_pow2 (x : Q) (q : Z) : (x / Qpow2 q == x * Qpow2 (- q))%Q.
Proof.
  unfold Qdiv. apply Qmult_comp; [reflexivity|].
  unfold Qpow2. now rewrite Qpower_opp.
Qed.

(** Rounding does not cross an integer: integers below [2^53] are
    binary64 numbers. *)
Lemma round_double_ge_int (x : Q) (j : Z) :
  (0 <= x)%Q -> (x < Qpow2 53)%Q ->
  (inject_Z j <= x)%Q -> (inject_Z j <= round_double x)%Q.
Proof.
  intros Nn Lt H.
  destruct (Qlt_le_dec 0 x) as [Pos|Np].
  2:{ rewrite round_double_zero by lra. lra. }
  rewrite (round_double_pos x Pos).
  pose proof (ulp_exponent_le_0 x Pos Lt) as Q0.
  set (q := Z.max (binade x - 52) (-1074)) in *.
  pose proof (Qpow2_pos q) as Pq. pose proof (Qpow2_pos (- q)) as Pi.
  assert (K : (inject_Z (j * 2 ^ (- q)) <= x / Qpow2 q)%Q).
  { rewrite div_pow2, inject_Z_mult, <- Qpow2_Z by lia.
    apply Qmult_le_r; assumption. }
  apply round_half_even_ge in K. rewrite Zle_Qle in K.
  apply (Qmult_le_r _ _ (Qpow2 q) Pq) in K.
  rewrite inject_Z_mult, <- Qpow2_Z in K by lia.
  rewrite <- Qmult_assoc, (Qmult_comm (Qpow2 (- q))), Qpow2_inv in K.
  lra.
Qed.

Lemma round_double_le_int (x : Q) (j : Z) :
  (0 <= x)%Q -> (x < Qpow2 53)%Q ->
  (x <= inject_Z j)%Q -> (round_double x <= inject_Z j)%Q.
Proof.
  intros Nn Lt H.
  destruct (Qlt_le_dec 0 x) as [Pos|Np].
  2:{ rewrite round_double_zero by lra. lra. }
  rewrite (round_double_pos x Pos).
  pose proof (ulp_exponent_le_0 x Pos Lt) as Q0.
  set (q := Z.max (binade x - 52) (-1074)) in *.
  pose proof (Qpow2_pos q) as Pq. pose proof (Qpow2_pos (- q)) as Pi.
  assert (K : (x / Qpow2 q <= inject_Z (j * 2 ^ (- q)))%Q).
  { rewrite div_pow2, inject_Z_mult, <- Qpow2_Z by lia.
    apply Qmult_le_r; assumption. }
  apply round_half_even_le in K. rewrite Zle_Qle in K.
  apply (Qmult_le_r _ _ (Qpow2 q) Pq) in K.
  rewrite inject_Z_mult, <- Qpow2_Z in K by lia.
  rewrite <- Qmult_assoc, (Qmult_comm (Qpow2 (- q))), Qpow2_inv in K.
  lra.
Qed.

(** The relative error of rounding up is at most [2^-53], except among
    the subnormal numbers, which are far below 1. *)
Lemma round_double_up (x : Q) :
  (0 <= x)%Q ->
  (round_double x <= x * (1 + Qpow2 (-53)))%Q \/
  (x < 1 /\ round_double x < 1)%Q.
Proof.
  intros Nn. pose proof (Qpow2_pos (-53)) as P53.
  destruct (Qlt_le_dec 0 x) as [Pos|Np].
  2:{ left. rewrite round_double_zero by lra.
      assert (x == 0)%Q by lra. rewrite H. lra. }
  rewrite (round_double_pos x Pos).
  destruct (binade_spec x Pos) as [Lo Hi].
  set (q := Z.max (binade x - 52) (-1074)).
  pose proof (Qpow2_pos q) as Pq.
  pose proof (round_half_even_near (x / Qpow2 q)) as Near.
  apply (Qmult_le_r _ _ (Qpow2 q) Pq) in Near.
  assert (E : ((x / Qpow2 q + (1 # 2)) * Qpow2 q
               == x + Qpow2 q * (1 # 2))%Q)
    by (field; lra).
  rewrite E in Near. clear E.
  destruct (Z.le_ge_cases (-1074) (binade x - 52)) as [Normal|Sub].
  - left.
    assert (Eq : q = binade x + (-52)) by (subst q; lia).
    assert (H2 : (Qpow2 (-52) == Qpow2 (-53) * 2)%Q).
    { change 2%Q with (Qpow2 1). rewrite <- Qpow2_add. reflexivity. }
    assert (Hq : (Qpow2 q == Qpow2 (binade x) * Qpow2 (-52))%Q)
      by (rewrite Eq; apply Qpow2_add).
    assert (M : (Qpow2 (binade x) * Qpow2 (-53) <= x * Qpow2 (-53))%Q)
      by (apply Qmult_le_r; assumption).
    assert (R : (Qpow2 (binade x) * Qpow2 (-52)
                 == 2 * (Qpow2 (binade x) * Qpow2 (-53)))%Q)
      by (rewrite H2; ring).
    lra.
  - right.
    assert (Eq : q = -1074) by (subst q; lia).
    assert (Sm : (Qpow2 (binade x + 1) <= Qpow2 (-1021))%Q)
      by (apply Qpow2_le; lia).
    assert (T1 : (Qpow2 (-1021) <= Qpow2 (-2))%Q) by (apply Qpow2_le; lia).
    assert (T2 : (Qpow2 q <= Qpow2 (-2))%Q) by (apply Qpow2_le; lia).
    change (Qpow2 (-2)) with (1 # 4)%Q in T1, T2.
    split; lra.
Qed.

Lemma Qpow2_53 : (Qpow2 53 * Qpow2 (-53) == 1)%Q.
Proof. apply (Qpow2_inv 53). Qed.

(** A binary64 number below 1 is at most [1 - 2^-53]. *)
Lemma unit_double_bounds (r : Q) :
  unit_double r -> (0 <= r /\ r <= 1 - Qpow2 (-53))%Q.
Proof.
  intros [m [e [[M0 M1] [[E0 E1] Eq]]]].
  pose proof (Qpow2_pos e) as Pe. pose proof (Qpow2_pos (-53)) as P53.
  assert (Le : (Qpow2 e <= Qpow2 (-53))%Q) by (apply Qpow2_le; lia).
  assert (Mq : (0 <= inject_Z m)%Q)
    by (change 0%Q with (inject_Z 0); now rewrite <- Zle_Qle).
  assert (Mu : (inject_Z m <= Qpow2 53 - 1)%Q).
  { assert (T : (inject_Z m <= inject_Z (2 ^ 53 + -1))%Q)
      by (rewrite <- Zle_Qle; lia).
    rewrite inject_Z_plus, <- Qpow2_Z in T by lia.
    change (inject_Z (-1)) with (-1 # 1)%Q in T. lra. }
  rewrite Eq. split.
  - apply Qmult_le_0_compat; lra.
  - apply Qle_trans with (inject_Z m * Qpow2 (-53))%Q.
    + apply Qmult_le_compat_nonneg; split; lra.
    + apply Qle_trans with ((Qpow2 53 - 1) * Qpow2 (-53))%Q.
      * apply Qmult_le_r; assumption.
      * pose proof Qpow2_53. lra.
Qed.

(* ================================================================= *)
(** ** Delays *)

Section Delays.

Variable K : constants.

Lemma Qfloor_eq_iff (x : Q) (n : Z) :
  Qfloor x = n <-> (inject_Z n <= x /\ x < inject_Z (n + 1))%Q.
Proof.
  split.
  - intros <-. split; [apply Qfloor_le | apply Qlt_floor].
  - intros [Lo Hi].
    assert (n <= Qfloor x).
    { rewrite <- (Qfloor_Z n). now apply Qfloor_resp_le. }
    assert (Qfloor x < n + 1).
    { rewrite Zlt_Qlt. eapply Qle_lt_trans; [apply Qfloor_le | exact Hi]. }
    lia.
Qed.

(** The product of a draw with the width of the range. *)
Lemma scaled_draw_bounds (r : Q) :
  unit_double r -> safe_constants K ->
  let span := inject_Z (MAX_DELAY K - MIN_DELAY K + 1) in
  (0 <= r * span /\ r * span <= span * (1 - Qpow2 (-53)) /\
   r * span < Qpow2 53 /\ 1 <= span)%Q.
Proof.
  intros U [[S0 S1] S2]. cbn zeta.
  destruct (unit_double_bounds r U) as [R0 R1].
  set (w := MAX_DELAY K - MIN_DELAY K + 1).
  assert (W1 : (1 <= inject_Z w)%Q)
    by (change 1%Q with (inject_Z 1); rewrite <- Zle_Qle; subst w; lia).
  assert (W2 : (inject_Z w <= Qpow2 53)%Q)
    by (rewrite Qpow2_Z by lia; rewrite <- Zle_Qle; subst w; lia).
  pose proof (Qpow2_pos (-53)) as P53.
  assert (A : (r * inject_Z w <= (1 - Qpow2 (-53)) * inject_Z w)%Q)
    by (apply Qmult_le_r; lra).
  repeat split.
  - apply Qmult_le_0_compat; lra.
  - lra.
  - assert (Qpow2 (-53) * inject_Z w > 0)%Q
      by (apply Qmult_lt_0_compat; lra).
    lra.
  - exact W1.
Qed.

Lemma delay_of_range (r : Q) :
  unit_double r -> safe_constants K ->
  MIN_DELAY K <= delay_of K r <= MAX_DELAY K.
Proof.
  intros U S.
  destruct (scaled_draw_bounds r U S) as [X0 [X1 [X2 W1]]].
  unfold delay_of, Math_floor, number_mul.
  set (w := MAX_DELAY K - MIN_DELAY K + 1) in *.
  set (x := (r * inject_Z w)%Q) in *.
  pose proof (Qpow2_pos (-53)) as P53.
  assert (Lo : (inject_Z 0 <= round_double x)%Q)
    by (apply round_double_ge_int; assumption).
  assert (Hi : (round_double x < inject_Z w)%Q).
  { destruct (round_double_up x X0) as [A|[_ B]]; [|lra].
    assert (x * (1 + Qpow2 (-53))
            <= inject_Z w * (1 - Qpow2 (-53)) * (1 + Qpow2 (-53)))%Q
      by (apply Qmult_le_r; lra).
    assert (0 < inject_Z w * (Qpow2 (-53) * Qpow2 (-53)))%Q.
    { apply Qmult_lt_0_compat; [lra|]. apply Qmult_lt_0_compat; lra. }
    assert (inject_Z w * (1 - Qpow2 (-53)) * (1 + Qpow2 (-53))
            == inject_Z w - inject_Z w * (Qpow2 (-53) * Qpow2 (-53)))%Q
      by ring.
    lra. }
  apply Qfloor_resp_le in Lo. rewrite Qfloor_Z in Lo.
  assert (Qfloor (round_double x) < w).
  { rewrite Zlt_Qlt. eapply Qle_lt_trans; [apply Qfloor_le | exact Hi]. }
  subst w. lia.
Qed.

(** The delay is the floor of the exact product, or one more when the
    double product rounds up to the next integer. *)
Lemma delay_of_exact_or_next (r : Q) :
  unit_double r -> safe_constants K ->
  let exact :=
    Qfloor (r * inject_Z (MAX_DELAY K - MIN_DELAY K + 1)) + MIN_DELAY K in
  delay_of K r = exact \/ delay_of K r = exact + 1.
Proof.
  intros U S. cbn zeta.
  destruct (scaled_draw_bounds r U S) as [X0 [_ [X2 _]]].
  unfold delay_of, Math_floor, number_mul.
  set (x := (r * inject_Z (MAX_DELAY K - MIN_DELAY K + 1))%Q) in *.
  pose proof (Qfloor_le x) as F. pose proof (Qlt_floor x) as G.
  assert (Lo : (inject_Z (Qfloor x) <= round_double x)%Q)
    by (apply round_double_ge_int; assumption).
  assert (Hi : (round_double x <= inject_Z (Qfloor x + 1))%Q)
    by (apply round_double_le_int; [assumption | assumption | lra]).
  apply Qfloor_resp_le in Lo, Hi. rewrite Qfloor_Z in Lo, Hi. lia.
Qed.

(** Each duration is drawn on a slice of the scaled draw of width 1, up
    to the relative error [2^-53] of the double product. *)
Lemma delay_of_slice (r : Q) (d : Z) :
  unit_double r -> safe_constants K ->
  let x := (r * inject_Z (MAX_DELAY K - MIN_DELAY K + 1))%Q in
  ((inject_Z (d - MIN_DELAY K) <= x /\
    x * (1 + Qpow2 (-53)) < inject_Z (d - MIN_DELAY K + 1))%Q ->
   delay_of K r = d) /\
  (delay_of K r = d ->
   (inject_Z (d - MIN_DELAY K) <= x * (1 + Qpow2 (-53)) /\
    x < inject_Z (d - MIN_DELAY K + 1))%Q).
Proof.
  intros U S. cbn zeta.
  destruct (scaled_draw_bounds r U S) as [X0 [_ [X2 _]]].
  unfold delay_of, Math_floor, number_mul.
  set (x := (r * inject_Z (MAX_DELAY K - MIN_DELAY K + 1))%Q) in *.
  set (j := d - MIN_DELAY K).
  pose proof (Qpow2_pos (-53)) as P53.
  assert (Xe : (0 <= x * Qpow2 (-53))%Q) by (apply Qmult_le_0_compat; lra).
  split.
  - intros [Lo Hi].
    assert (J0 : 0 <= j).
    { assert (inject_Z 0 < inject_Z (j + 1))%Q
        by (change (inject_Z 0) with 0%Q; lra).
      rewrite <- Zlt_Qlt in H. lia. }
    assert (Qfloor (round_double x) = j); [|lia].
    apply Qfloor_eq_iff. split.
    + apply round_double_ge_int; assumption.
    + destruct (round_double_up x X0) as [A|[_ B]]; [lra|].
      assert (inject_Z 1 <= inject_Z (j + 1))%Q
        by (rewrite <- Zle_Qle; lia).
      change (inject_Z 1) with 1%Q in H. lra.
  - intros D.
    assert (Fl : Qfloor (round_double x) = j) by (subst j; lia).
    apply Qfloor_eq_iff in Fl. destruct Fl as [Lo Hi].
    split.
    + destruct (round_double_up x X0) as [A|[_ B]]; [lra|].
      assert (inject_Z j < inject_Z 1)%Q
        by (change (inject_Z 1) with 1%Q; lra).
      rewrite <- Zlt_Qlt in H.
      assert (inject_Z j <= inject_Z 0)%Q by (rewrite <- Zle_Qle; lia).
      change (inject_Z 0) with 0%Q in H0. lra.
    + apply Qnot_le_lt. intros C.
      apply (round_double_ge_int x (j + 1) X0 X2) in C. lra.
Qed.

End Delays.

Section Pauses.

Variable K : constants.
Variable W : world.

(** C8.  Every iteration succeeds or fails, as its replies decide, and
    sets its timers accordingly.  After a success that is not the last
    iteration: one timer, of [Math.floor(r * (MAX_DELAY - MIN_DELAY + 1))
    + MIN_DELAY] milliseconds for a fresh draw [r] of [Math.random()].
    After a success in the last iteration: none.  After a failure, whatever
    threw and in whichever iteration: one timer of 5000 milliseconds and no
    random one.  For a draw in [0,1) and delay bounds that are integers in
    order, the duration lies between [MIN_DELAY] and [MAX_DELAY]; it is the
    floor of the exact product or, when the double product rounds up to an
    integer, one more; and each duration [d] is drawn on the slice
    [(d - MIN_DELAY) <= r * width < (d - MIN_DELAY) + 1] up to the relative
    error [2^-53] of the product: the slices have the same width, which is
    the sense in which a uniform draw gives a uniform duration. *)
Theorem pause_after_each_attempt (i : nat) (s : state) :
  (attempt_succeeds W s \/ attempt_fails W s) /\
  (exists new,
      events (exec (attempt K W i) s) = events s ++ new /\
      (attempt_succeeds W s ->
       (i < INCREMENT_COUNT K)%nat ->
       slept new = [delay_of K (Math_random W (S (n_random s)))]) /\
      (attempt_succeeds W s ->
       (INCREMENT_COUNT K <= i)%nat ->
       slept new = []) /\
      (attempt_fails W s -> slept new = [5000])) /\
  (forall r,
      unit_double r -> safe_constants K ->
      MIN_DELAY K <= delay_of K r <= MAX_DELAY K) /\
  (forall r,
      unit_double r -> safe_constants K ->
      let exact :=
        Qfloor (r * inject_Z (MAX_DELAY K - MIN_DELAY K + 1))
        + MIN_DELAY K in
      delay_of K r = exact \/ delay_of K r = exact + 1) /\
  (forall r d,
      unit_double r -> safe_constants K ->
      let x := (r * inject_Z (MAX_DELAY K - MIN_DELAY K + 1))%Q in
      ((inject_Z (d - MIN_DELAY K) <= x /\
        x * (1 + Qpow2 (-53)) < inject_Z (d - MIN_DELAY K + 1))%Q ->
       delay_of K r = d) /\
      (delay_of K r = d ->
       (inject_Z (d - MIN_DELAY K) <= x * (1 + Qpow2 (-53)) /\
        x < inject_Z (d - MIN_DELAY K + 1))%Q)).
Proof.
  split; [apply attempt_succeeds_or_fails|].
  split; [|split; [|split]].
  - destruct (attempt_sleeps K W i s) as [new [Ev Sl]].
    exists new. split; [exact Ev|]. split; [|split].
    + intros Ok Lt. destruct (attempt_succeeds_path W s Ok) as [r [p P]].
      rewrite P in Sl. apply Nat.ltb_lt in Lt. now rewrite Lt in Sl.
    + intros Ok Ge. destruct (attempt_succeeds_path W s Ok) as [r [p P]].
      rewrite P in Sl. apply Nat.ltb_ge in Ge. now rewrite Ge in Sl.
    + intros F. destruct (attempt_fails_sleeps K W i s F) as [new' [Ev' Sl']].
      rewrite Ev in Ev'. apply app_inv_head in Ev'. now subst new'.
  - intros r. apply delay_of_range.
  - intros r. apply delay_of_exact_or_next.
  - intros r d. apply delay_of_slice.
Qed.

End Pauses.

(* ================================================================= *)
(** ** The report and the exit code *)

Lemma avgGasPerTx_total (s : state) :
  exists text, avgGasPerTx s = (Ret text, s).
Proof.
  unfold avgGasPerTx, bind, get, bigint_div, ret, throw.
  destruct (0 <? successCount s) eqn:Pos; [|eauto].
  apply Z.ltb_lt in Pos.
  assert (Nz : (successCount s =? 0) = false) by (apply Z.eqb_neq; lia).
  rewrite Nz. eauto.
Qed.

Lemma avgCostPerTx_total (formatEth : Z -> string) (s : state) :
  exists text, avgCostPerTx formatEth s = (Ret text, s).
Proof.
  unfold avgCostPerTx, bind, get, bigint_div, ret, throw.
  destruct (0 <? successCount s) eqn:Pos; [|eauto].
  apply Z.ltb_lt in Pos.
  assert (Nz : (successCount s =? 0) = false) by (apply Z.eqb_neq; lia).
  rewrite Nz. eauto.
Qed.

Arguments avgGasPerTx : simpl never.
Arguments avgCostPerTx : simpl never.

Ltac settle_averages :=
  repeat match goal with
    | |- context [avgGasPerTx ?st] =>
        let t := fresh "avgGas" in
        let Eq := fresh "Eq" in
        destruct (avgGasPerTx_total st) as [t Eq]; rewrite Eq; cbn
    | |- context [avgCostPerTx ?f ?st] =>
        let t := fresh "avgCost" in
        let Eq := fresh "Eq" in
        destruct (avgCostPerTx_total f st) as [t Eq]; rewrite Eq; cbn
    end.

Section Script.

Variable formatEth : Z -> string.
Variable K : constants.
Variable E : env.
Variable W : world.

Lemma report_final_count_lost (balance c0 : Z) (s : state) (e : js_error) :
  getCount_reply W (n_getCount s) = Reject e ->
  exists s',
    report formatEth K W balance c0 s = (Throw e, s') /\
    same_stats s s' /\
    events s' =
      events s ++ [Log L_blank; Log L_finalStatistics; Log L_finalRule;
                   Rpc GetCount].
Proof.
  intros H. unfold report, bind, contract_getCount; cbn. rewrite H; cbn.
  eexists. split; [reflexivity|]. split; [repeat split|].
  cbn. now repeat rewrite <- app_assoc.
Qed.

Lemma report_final_balance_lost (balance c0 fc : Z) (s : state)
      (e : js_error) :
  getCount_reply W (n_getCount s) = Resolve fc ->
  getBalance_reply W (n_getBalance s) = Reject e ->
  exists s' avgGas avgCost,
    report formatEth K W balance c0 s = (Throw e, s') /\
    same_stats s s' /\
    events s' =
      events s ++ [Log L_blank; Log L_finalStatistics; Log L_finalRule;
                   Rpc GetCount]
               ++ statistics_block K s c0 fc avgGas avgCost
               ++ [Rpc GetBalance].
Proof.
  intros Hc Hb.
  unfold report, bind, contract_getCount, provider_getBalance; cbn.
  rewrite Hc; cbn. settle_averages. rewrite Hb; cbn.
  do 3 eexists. split; [reflexivity|]. split; [repeat split|].
  cbn. now repeat rewrite <- app_assoc.
Qed.

Lemma report_completes (balance c0 fc fb : Z) (s : state) :
  getCount_reply W (n_getCount s) = Resolve fc ->
  getBalance_reply W (n_getBalance s) = Resolve fb ->
  exists s' avgGas avgCost,
    report formatEth K W balance c0 s = (Ret tt, s') /\
    same_stats s s' /\
    events s' =
      events s ++ [Log L_blank; Log L_finalStatistics; Log L_finalRule;
                   Rpc GetCount]
               ++ statistics_block K s c0 fc avgGas avgCost
               ++ [Rpc GetBalance;
                   Log (L_initialBalance balance);
                   Log (L_finalBalance fb);
                   Log (L_totalSpent (balance - fb));
                   Log L_blank; Log L_completed].
Proof.
  intros Hc Hb.
  unfold report, bind, contract_getCount, provider_getBalance; cbn.
  rewrite Hc; cbn. settle_averages. rewrite Hb; cbn.
  do 3 eexists. split; [reflexivity|]. split; [repeat split|].
  cbn. now repeat rewrite <- app_assoc.
Qed.


(** [startup] leaves by [process.exit] only with code 1, and when it
    returns the four statistics are zero. *)
Lemma startup_outcomes (s : state) :
  match startup K E W s with
  | (Ret _, s0) =>
      successCount s0 = 0 /\ failCount s0 = 0 /\
      totalGasUsed s0 = 0 /\ totalGasCost s0 = 0
  | (Throw _, _) => True
  | (Exit c, _) => c = 1
  end.
Proof.
  unfold startup, bind, provider_getBalance, contract_getCount; cbn.
  destruct (getBalance_reply W (n_getBalance s)) as [b|e]; cbn; trivial.
  destruct (b =? 0); cbn; trivial.
  destruct (getCount_reply W (n_getCount s)) as [c|e]; cbn; auto.
Qed.

Lemma startup_empty_wallet (s : state) :
  getBalance_reply W (n_getBalance s) = Resolve 0 ->
  exists s',
    startup K E W s = (Exit 1, s') /\
    same_stats s s' /\
    events s' =
      events s ++ [Log L_banner; Log L_bannerRule;
                   Log (L_contractAddress (COUNTER_ADDRESS E));
                   Log L_walletAddress;
                   Log (L_target (INCREMENT_COUNT K));
                   Log (L_delayRange (MIN_DELAY K) (MAX_DELAY K));
                   Log L_blank; Rpc GetBalance; Log (L_walletBalance 0);
                   LogError L_insufficient].
Proof.
  intros H. unfold startup, bind, provider_getBalance; cbn.
  rewrite H; cbn.
  eexists. split; [reflexivity|]. split; [repeat split|].
  cbn. now repeat rewrite <- app_assoc.
Qed.

(** [main] is the start-up, then the loop, then the report. *)
Lemma main_unfolded (s : state) :
  main formatEth K E W s =
    match startup K E W s with
    | (Ret started, s0) =>
        report formatEth K W (fst started) (snd started)
               (exec (attempt_loop K W) s0)
    | (Throw e, s') => (Throw e, s')
    | (Exit c, s') => (Exit c, s')
    end.
Proof.
  unfold main, bind.
  destruct (startup K E W s) as [[started|e|c] s0]; try reflexivity.
  unfold exec, attempt_loop. now rewrite attempts_from_fold.
Qed.


Lemma script_configured :
  falsy (PRIVATE_KEY E) = false ->
  falsy (COUNTER_ADDRESS E) = false ->
  ethers_setup W = None ->
  script formatEth K E W =
    try_catch (main formatEth K E W)
      (fun error => console_error (L_fatal error) ;; process_exit 1).
Proof. intros Ek Ea Hs. unfold script. now rewrite Ek, Ea, Hs. Qed.

(** With the configuration in place the exit code is decided by how
    [main] ends. *)
Lemma run_configured :
  falsy (PRIVATE_KEY E) = false ->
  falsy (COUNTER_ADDRESS E) = false ->
  ethers_setup W = None ->
  run formatEth K E W =
    match main formatEth K E W initial_state with
    | (Ret _, s') => (0, s')
    | (Throw e, s') => (1, exec (console_error (L_fatal e)) s')
    | (Exit c, s') => (c, s')
    end.
Proof.
  intros Ek Ea Hs. unfold run. rewrite (script_configured Ek Ea Hs).
  unfold try_catch.
  destruct (main formatEth K E W initial_state) as [[[]|e|c] s'];
    reflexivity.
Qed.

Lemma main_after_loop (b c0 : Z) (sL : state) :
  loop_end K E W = Some (b, c0, sL) ->
  main formatEth K E W initial_state = report formatEth K W b c0 sL.
Proof.
  unfold loop_end. intros HL. rewrite main_unfolded.
  destruct (startup K E W initial_state) as [[[b' c0']|e|c] s0];
    try discriminate.
  injection HL as -> -> <-. reflexivity.
Qed.

Lemma loop_end_counts (b c0 : Z) (sL : state) :
  loop_end K E W = Some (b, c0, sL) ->
  successCount sL + failCount sL = Z.of_nat (INCREMENT_COUNT K).
Proof.
  unfold loop_end. intros HL.
  pose proof (startup_outcomes initial_state) as Z0.
  destruct (startup K E W initial_state) as [[[b' c0']|e|c] s0];
    try discriminate.
  injection HL as -> -> <-.
  pose proof (attempts_from_counts K W (INCREMENT_COUNT K) 1 s0) as C.
  cbn zeta in C. unfold attempt_loop. lia.
Qed.

(** A run that gets through the start-up is the loop followed by the
    report, and its exit code is decided by the report alone. *)
Lemma run_after_loop (b c0 : Z) (sL : state) :
  falsy (PRIVATE_KEY E) = false ->
  falsy (COUNTER_ADDRESS E) = false ->
  ethers_setup W = None ->
  loop_end K E W = Some (b, c0, sL) ->
  run formatEth K E W =
    match report formatEth K W b c0 sL with
    | (Ret _, s') => (0, s')
    | (Throw e, s') => (1, exec (console_error (L_fatal e)) s')
    | (Exit c, s') => (c, s')
    end.
Proof.
  intros Ek Ea Hs HL.
  rewrite (run_configured Ek Ea Hs).
  now rewrite (main_after_loop b c0 sL HL).
Qed.


Lemma run_completes (b c0 : Z) (sL : state) (fc fb : Z) :
  falsy (PRIVATE_KEY E) = false ->
  falsy (COUNTER_ADDRESS E) = false ->
  ethers_setup W = None ->
  loop_end K E W = Some (b, c0, sL) ->
  getCount_reply W (n_getCount sL) = Resolve fc ->
  getBalance_reply W (n_getBalance sL) = Resolve fb ->
  fst (run formatEth K E W) = 0 /\
  same_stats sL (snd (run formatEth K E W)) /\
  successCount (snd (run formatEth K E W))
  + failCount (snd (run formatEth K E W))
    = Z.of_nat (INCREMENT_COUNT K) /\
  exists evs, events (snd (run formatEth K E W)) = evs ++ [Log L_completed].
Proof.
  intros Ek Ea Hs HL Hc Hb.
  pose proof (loop_end_counts b c0 sL HL) as Sum.
  destruct (report_completes b c0 fc fb sL Hc Hb)
    as [s' [avgGas [avgCost [Rep [Same Ev]]]]].
  rewrite (run_after_loop b c0 sL Ek Ea Hs HL), Rep; cbn [fst snd].
  split; [reflexivity|]. split; [exact Same|].
  split; [destruct Same as [A [B _]]; lia|].
  rewrite Ev. unfold statistics_block.
  eexists. repeat rewrite app_assoc.
  change [Rpc GetBalance; Log (L_initialBalance b);
          Log (L_finalBalance fb); Log (L_totalSpent (b - fb));
          Log L_blank; Log L_completed]
    with ([Rpc GetBalance; Log (L_initialBalance b);
           Log (L_finalBalance fb); Log (L_totalSpent (b - fb));
           Log L_blank] ++ [Log L_completed]).
  rewrite app_assoc. reflexivity.
Qed.




(** C10, amended.  Once the loop is over, all [INCREMENT_COUNT] attempts
    are counted.  If the final counter read is then rejected, only the
    heading of the report has been printed and no statistic; if it
    succeeds and the final balance read is rejected, the counter, success,
    failure and gas lines have been printed and only the balance lines and
    the closing line are missing.  Either way the error reaches the
    top-level handler, which prints it, and the process exits with
    code 1. *)
Theorem failed_final_read_is_fatal
        (b c0 : Z) (sL : state) (e : js_error) :
  falsy (PRIVATE_KEY E) = false ->
  falsy (COUNTER_ADDRESS E) = false ->
  ethers_setup W = None ->
  loop_end K E W = Some (b, c0, sL) ->
  let code := fst (run formatEth K E W) in
  let final := snd (run formatEth K E W) in
  (getCount_reply W (n_getCount sL) = Reject e ->
   code = 1 /\
   successCount final + failCount final = Z.of_nat (INCREMENT_COUNT K) /\
   events final =
     events sL ++ [Log L_blank; Log L_finalStatistics; Log L_finalRule;
                   Rpc GetCount]
               ++ [LogError (L_fatal e)]) /\
  (forall fc,
      getCount_reply W (n_getCount sL) = Resolve fc ->
      getBalance_reply W (n_getBalance sL) = Reject e ->
      code = 1 /\
      successCount final + failCount final
        = Z.of_nat (INCREMENT_COUNT K) /\
      exists avgGas avgCost,
        events final =
          events sL ++ [Log L_blank; Log L_finalStatistics;
                        Log L_finalRule; Rpc GetCount]
                    ++ statistics_block K sL c0 fc avgGas avgCost
                    ++ [Rpc GetBalance]
                    ++ [LogError (L_fatal e)]).
Proof.
  intros Ek Ea Hs HL. cbv zeta.
  pose proof (loop_end_counts b c0 sL HL) as Sum.
  rewrite (run_after_loop b c0 sL Ek Ea Hs HL). split.
  - intros Hc.
    destruct (report_final_count_lost b c0 sL e Hc) as [s' [Rep [Same Ev]]].
    rewrite Rep; cbn. destruct Same as [A [B _]].
    split; [reflexivity|]. split; [lia|].
    rewrite Ev. now rewrite <- app_assoc.
  - intros fc Hc Hb.
    destruct (report_final_balance_lost b c0 fc sL e Hc Hb)
      as [s' [avgGas [avgCost [Rep [Same Ev]]]]].
    rewrite Rep; cbn. destruct Same as [A [B _]].
    split; [reflexivity|]. split; [lia|].
    exists avgGas, avgCost. rewrite Ev.
    now repeat rewrite <- app_assoc.
Qed.

End Script.

(* ================================================================= *)
(** ** The statements at concrete worlds *)

Lemma steady_world_unsigned : unsigned_replies steady_world.
Proof.
  split.
  - intros k r H. inversion H; subst; cbn. split; [lia|].
    intros p Hp. inversion Hp. lia.
  - intros k t p H Hp. inversion H; subst; cbn in Hp. inversion Hp. lia.
Qed.

(** From zero, the totals of the loop are never negative. *)
Lemma totals_nonnegative (K : constants) (W : world) (k i : nat) (s : state) :
  unsigned_replies W ->
  0 <= totalGasUsed s -> 0 <= totalGasCost s ->
  0 <= totalGasUsed (exec (attempts_from K W k i) s) /\
  0 <= totalGasCost (exec (attempts_from K W k i) s).
Proof.
  intros U Hu Hc.
  pose proof (attempts_from_totals_monotone K W k i s U). lia.
Qed.

(** The scenario of three attempts of which the second fails: two
    successes, one failure, one random pause and one fixed pause. *)
Example one_failure_in_three :
  let r := run plain_wei three_attempts env_ok lost_submit_world in
  fst r = 0 /\
  successCount (snd r) = 2 /\ failCount (snd r) = 1 /\
  totalGasUsed (snd r) = 42000 /\
  slept (events (snd r)) = [2000; 5000].
Proof. vm_compute. repeat split. Qed.

(** A draw whose product with 2001 is rounded up to the integer 41 by the
    double multiplication: the delay is 1041, one more than the floor of
    the exact product. *)
Example delay_of_a_product_that_rounds_up :
  unit_double (184555307068656 # 9007199254740992) /\
  number_mul (184555307068656 # 9007199254740992) (inject_Z 2001) == 41 # 1 /\
  delay_of source_constants (184555307068656 # 9007199254740992) = 1041 /\
  Qfloor ((184555307068656 # 9007199254740992) * inject_Z 2001) + 1000 = 1040.
Proof.
  split.
  - exists 184555307068656, (-53). repeat split; try lia.
  - split; [vm_compute; reflexivity|]. split; vm_compute; reflexivity.
Qed.

(** The scenario of three attempts that all succeed. *)
Example three_successes :
  let r := run plain_wei three_attempts env_ok steady_world in
  fst r = 0 /\
  successCount (snd r) = 3 /\ failCount (snd r) = 0 /\
  totalGasUsed (snd r) = 63000 /\
  In (Log (L_avgGasPerTx "21000")) (events (snd r)).
Proof.
  vm_compute. repeat split.
  repeat (first [left; reflexivity | right]).
Qed.

(** C2, on the code.  In [lost_read_world] the first transaction is
    confirmed and its gas is added to both totals; the counter read that
    follows is rejected, so the iteration is counted as a failure.  At the
    end of the run of 50 the totals hold the gas of 50 transactions while
    [successCount] is 49: the report shows 50 actual increments, 49
    successes, and an average of 1050000 / 49 for transactions that used
    21000 each. *)
Theorem gas_recorded_on_a_counted_failure :
  let s0 := exec (startup source_constants env_ok lost_read_world)
                 initial_state in
  let s1 := exec (attempt source_constants lost_read_world 1) s0 in
  let r := run plain_wei source_constants env_ok lost_read_world in
  path_of lost_read_world s0 =
    FailedPostRead (mkReceipt 21000 (Some 1)) 1
                   (mkError "429 Too Many Requests") /\
  (successCount s0, failCount s0, totalGasUsed s0, totalGasCost s0)
    = (0, 0, 0, 0) /\
  (successCount s1, failCount s1, totalGasUsed s1, totalGasCost s1)
    = (0, 1, 21000, 21000) /\
  fst r = 0 /\
  (successCount (snd r), failCount (snd r), totalGasUsed (snd r))
    = (49, 1, 1050000) /\
  skipn 566 (events (snd r)) =
    [ Log (L_actualIncrements 50); Log L_blank;
      Log (L_successes 49); Log (L_failed 1); Log (L_successRate 49 50);
      Log L_blank;
      Log (L_totalGasUsed 1050000); Log (L_totalGasCost 1050000);
      Log (L_avgGasPerTx "21428"); Log (L_avgCostPerTx "21428 ETH");
      Log L_blank; Rpc GetBalance;
      Log (L_initialBalance one_ether); Log (L_finalBalance one_ether);
      Log (L_totalSpent 0); Log L_blank; Log L_completed ].
Proof. vm_compute. repeat split. Qed.

(** C3 as worded fails: a transaction can be confirmed without its
    iteration counting a success. *)
Lemma confirmed_attempt_counted_as_failure :
  ~ (forall (W : world) (i : nat) (s : state) c t r,
        getCount_reply W (n_getCount s) = Resolve c ->
        increment_reply W (n_increment s) = Resolve t ->
        wait_reply W (n_wait s) = Resolve r ->
        successCount (exec (attempt source_constants W i) s)
          = successCount s + 1).
Proof.
  intros H.
  specialize (H lost_read_world 1%nat
                (exec (startup source_constants env_ok lost_read_world)
                      initial_state)
                0 (mkTx "0xa1" (Some 1)) (mkReceipt 21000 (Some 1))
                eq_refl eq_refl eq_refl).
  vm_compute in H. discriminate.
Qed.

(** The first iteration in [steady_world]. *)
Lemma confirmed_and_reread_is_success_witness :
  let s' := exec (attempt source_constants steady_world 1) initial_state in
  (getCount_reply steady_world 0 = Resolve 0 /\
   increment_reply steady_world 0 = Resolve (mkTx "0xa1" (Some 1)) /\
   wait_reply steady_world 0 = Resolve (mkReceipt 21000 (Some 1)) /\
   js_or (Some 1) (Some 1) = Some 1 /\
   getCount_reply steady_world 1 = Resolve 0) /\
  totalGasUsed s' = 0 + 21000 /\
  totalGasCost s' = 0 + 21000 * 1 /\
  successCount s' = 0 + 1 /\
  failCount s' = 0.
Proof.
  split.
  - repeat split.
  - apply (confirmed_and_reread_is_success source_constants steady_world
             1 initial_state 0 0 (mkTx "0xa1" (Some 1))
             (mkReceipt 21000 (Some 1)) 1);
      reflexivity.
Defined.

(** A rejected submission in [rejecting_world]; the rejected counter read
    of line 106 in [lost_read_world]; and no gas price in
    [priceless_world]. *)
Lemma attempt_errors_are_absorbed_witness :
  let s' := exec (attempt source_constants rejecting_world 1) initial_state in
  let s0 := mkState 1 1 0 0 0 0 0 0 0 [] in
  (exists c,
      getCount_reply rejecting_world 0 = Resolve c /\
      increment_reply rejecting_world 0
        = Reject (mkError "insufficient funds")) /\
  failCount s' = 0 + 1 /\ successCount s' = 0 /\
  totalGasUsed s' = 0 /\ totalGasCost s' = 0 /\
  getCount_reply lost_read_world 2 = Reject (mkError "429 Too Many Requests") /\
  failCount (exec (attempt source_constants lost_read_world 1) s0) = 0 + 1 /\
  successCount (exec (attempt source_constants lost_read_world 1) s0) = 0 /\
  js_or None None = None /\
  failCount (exec (attempt source_constants priceless_world 1) initial_state)
    = 0 + 1 /\
  attempt_fails priceless_world initial_state.
Proof.
  assert (H : exists c,
             getCount_reply rejecting_world 0 = Resolve c /\
             increment_reply rejecting_world 0
               = Reject (mkError "insufficient funds"))
    by (exists 0; split; reflexivity).
  assert (F : attempt_fails priceless_world initial_state).
  { right; right; right; left.
    exists 0, (mkTx "0xa1" None), (mkReceipt 21000 None). repeat split. }
  split; [exact H|].
  destruct (proj1 (proj2 (attempt_errors_are_absorbed source_constants
                            rejecting_world))
              1%nat initial_state (mkError "insufficient funds")
              (or_intror (or_introl H)))
    as [A [B [C [D _]]]].
  destruct (proj1 (proj2 (proj2 (proj2 (proj2
              (attempt_errors_are_absorbed source_constants
                 lost_read_world)))))
              1%nat (mkState 1 1 0 0 0 0 0 0 0 [])
              0 (mkTx "0xa1" (Some 1)) (mkReceipt 21000 (Some 1)) 1
              (mkError "429 Too Many Requests")
              eq_refl eq_refl eq_refl eq_refl eq_refl)
    as [A' [B' _]].
  destruct (proj1 (proj2 (proj2 (proj2
              (attempt_errors_are_absorbed source_constants
                 priceless_world))))
              1%nat initial_state
              0 (mkTx "0xa1" None) (mkReceipt 21000 None)
              eq_refl eq_refl eq_refl eq_refl)
    as [A'' _].
  repeat split; try assumption.
Defined.



(** A receipt with a price of zero for a transaction priced at 7. *)
Lemma zero_receipt_price_falls_back_witness :
  (getCount_reply zero_price_world 0 = Resolve 0 /\
   increment_reply zero_price_world 0 = Resolve (mkTx "0xa1" (Some 7)) /\
   wait_reply zero_price_world 0 = Resolve (mkReceipt 21000 (Some 0))) /\
  js_or (Some 0) (Some 7) = Some 7 /\
  totalGasCost (exec (attempt source_constants zero_price_world 1)
                     initial_state)
    = 0 + 21000 * 7.
Proof.
  split; [repeat split|].
  apply (proj1 (zero_receipt_price_falls_back source_constants
                  zero_price_world 1 initial_state 0 (mkTx "0xa1" (Some 7))
                  (mkReceipt 21000 (Some 0)) 7
                  eq_refl eq_refl eq_refl eq_refl)
           eq_refl).
Defined.



(** The first of three attempts with a draw of 1/2 in [steady_world]; a
    rejected submission in [rejecting_world]. *)
Lemma pause_after_each_attempt_witness :
  (attempt_succeeds steady_world initial_state /\
   (1 < INCREMENT_COUNT three_attempts)%nat) /\
  slept (events (exec (attempt three_attempts steady_world 1) initial_state))
    = [2000] /\
  attempt_fails rejecting_world initial_state /\
  slept (events (exec (attempt three_attempts rejecting_world 1)
                      initial_state))
    = [5000] /\
  (unit_double (1 # 2) /\ safe_constants three_attempts) /\
  1000 <= delay_of three_attempts (1 # 2) <= 3000.
Proof.
  assert (Ok : attempt_succeeds steady_world initial_state).
  { exists 0, (mkTx "0xa1" (Some 1)), (mkReceipt 21000 (Some 1)), 1, 0.
    repeat split. }
  assert (Lt : (1 < INCREMENT_COUNT three_attempts)%nat) by (cbn; lia).
  assert (Bad : attempt_fails rejecting_world initial_state).
  { right; left. exists 0, (mkError "insufficient funds"). split; reflexivity. }
  assert (U : unit_double (1 # 2)).
  { exists (2 ^ 52), (-53). repeat split; try lia. }
  assert (Sf : safe_constants three_attempts)
    by (unfold safe_constants; cbn; lia).
  destruct (pause_after_each_attempt three_attempts steady_world
              1 initial_state)
    as [_ [[new [Ev [P _]]] [R _]]].
  destruct (pause_after_each_attempt three_attempts rejecting_world
              1 initial_state)
    as [_ [[new' [Ev' [_ [_ F]]]] _]].
  split; [split; assumption|]. split.
  { rewrite Ev. cbn [events initial_state app]. rewrite (P Ok Lt).
    vm_compute. reflexivity. }
  split; [exact Bad|]. split.
  { rewrite Ev'. cbn [events initial_state app]. exact (F Bad). }
  split; [split; assumption|].
  exact (R (1 # 2)%Q U Sf).
Defined.

(** C10 as worded fails: when the balance read after the loop is rejected,
    the statistics of the report are already on the console. *)
Lemma statistics_printed_before_final_balance_read :
  let r := run plain_wei source_constants env_ok final_balance_lost_world in
  getBalance_reply final_balance_lost_world 1
    = Reject (mkError "ETIMEDOUT") /\
  fst r = 1 /\
  skipn 561 (events (snd r)) =
    [ Log L_blank; Log L_finalStatistics; Log L_finalRule; Rpc GetCount;
      Log (L_initialCount 0); Log (L_finalCount 50);
      Log (L_actualIncrements 50); Log L_blank;
      Log (L_successes 50); Log (L_failed 0); Log (L_successRate 50 50);
      Log L_blank;
      Log (L_totalGasUsed 1050000); Log (L_totalGasCost 1050000);
      Log (L_avgGasPerTx "21000"); Log (L_avgCostPerTx "21000 ETH");
      Log L_blank; Rpc GetBalance;
      LogError (L_fatal (mkError "ETIMEDOUT")) ] /\
  ~ report_not_printed (snd r).
Proof.
  cbv zeta. split; [reflexivity|]. split; [vm_compute; reflexivity|].
  split; [vm_compute; reflexivity|].
  intros H.
  assert (X : existsb prints_statistic
                (events (snd (run plain_wei source_constants env_ok
                                  final_balance_lost_world))) = true)
    by (vm_compute; reflexivity).
  apply existsb_exists in X. destruct X as [e [In_e P]].
  specialize (H e In_e). rewrite P in H. discriminate H.
Qed.

(** A run whose final counter read is rejected, and one whose final
    balance read is rejected. *)
Lemma failed_final_read_is_fatal_witness :
  (getCount_reply final_count_lost_world 101 = Reject (mkError "ETIMEDOUT") /\
   fst (run plain_wei source_constants env_ok final_count_lost_world) = 1 /\
   successCount (snd (run plain_wei source_constants env_ok
                          final_count_lost_world))
   + failCount (snd (run plain_wei source_constants env_ok
                         final_count_lost_world)) = 50) /\
  (getBalance_reply final_balance_lost_world 1
     = Reject (mkError "ETIMEDOUT") /\
   fst (run plain_wei source_constants env_ok final_balance_lost_world) = 1 /\
   successCount (snd (run plain_wei source_constants env_ok
                          final_balance_lost_world))
   + failCount (snd (run plain_wei source_constants env_ok
                         final_balance_lost_world)) = 50).
Proof.
  split.
  - split; [reflexivity|].
    assert (HL : loop_end source_constants env_ok final_count_lost_world =
                 Some (one_ether, 0,
                       exec (attempt_loop source_constants
                                          final_count_lost_world)
                            (exec (startup source_constants env_ok
                                           final_count_lost_world)
                                  initial_state)))
      by (vm_compute; reflexivity).
    assert (Hc : getCount_reply final_count_lost_world
                   (n_getCount
                      (exec (attempt_loop source_constants
                                          final_count_lost_world)
                            (exec (startup source_constants env_ok
                                           final_count_lost_world)
                                  initial_state)))
                 = Reject (mkError "ETIMEDOUT"))
      by (vm_compute; reflexivity).
    destruct (proj1 (failed_final_read_is_fatal
                       plain_wei source_constants env_ok
                       final_count_lost_world one_ether 0 _
                       (mkError "ETIMEDOUT") eq_refl eq_refl eq_refl HL) Hc)
      as [A [B _]].
    split; assumption.
  - split; [reflexivity|].
    assert (HL : loop_end source_constants env_ok final_balance_lost_world =
                 Some (one_ether, 0,
                       exec (attempt_loop source_constants
                                          final_balance_lost_world)
                            (exec (startup source_constants env_ok
                                           final_balance_lost_world)
                                  initial_state)))
      by (vm_compute; reflexivity).
    assert (Hb : getBalance_reply final_balance_lost_world
                   (n_getBalance
                      (exec (attempt_loop source_constants
                                          final_balance_lost_world)
                            (exec (startup source_constants env_ok
                                           final_balance_lost_world)
                                  initial_state)))
                 = Reject (mkError "ETIMEDOUT"))
      by (vm_compute; reflexivity).
    destruct (proj2 (failed_final_read_is_fatal
                       plain_wei source_constants env_ok
                       final_balance_lost_world one_ether 0 _
                       (mkError "ETIMEDOUT") eq_refl eq_refl eq_refl HL)
                50 eq_refl Hb)
      as [A [B _]].
    split; assumption.
Defined.

(* ================================================================= *)
(** ** The deployment script *)

(** Splits on the three tests and on the status of each command the
    script gets to. *)
Ltac run_setup w :=
  let e := fresh "env_file" in
  let k := fresh "krnl" in
  let f := fresh "foundry" in
  let st := fresh "status" in
  destruct w as [e k f st];
  unfold krnl_setup_run, krnl_setup, sh_seq, launch, echo, sh_exit;
  cbn [env_file_exists krnl_on_path foundry_toml_exists status_of];
  destruct e, k, f; cbn;
  repeat match goal with
    | |- context [st ?c =? 0] => destruct (st c =? 0) eqn:?; cbn
    end.



(** X2.  [krnl deploy] is launched exactly when the [.env] file exists and
    every step before it succeeded: sourcing the file, installing the CLI
    when it is not on the path, initialising the project when there is no
    [foundry.toml], compiling, and the confirmation read. *)
Theorem deploy_only_after_every_step (w : shell_world) :
  launched KrnlDeploy (snd (krnl_setup_run w)) =
    env_file_exists w
    && (status_of w SourceEnv =? 0)
    && (krnl_on_path w || (status_of w NpmInstall =? 0))
    && (foundry_toml_exists w || (status_of w KrnlInit =? 0))
    && (status_of w KrnlCompile =? 0)
    && (status_of w ReadEnter =? 0).
Proof.
  run_setup w;
    repeat match goal with
      | |- context [?st ?c =? 0] => destruct (st c =? 0)
      end;
    reflexivity.
Qed.

(** X3.  With a [.env] file, the script stops at the first command that
    fails and exits with its status: every command launched before the last
    one succeeded, and the exit status is the status of the last command
    launched.  The status is 0 exactly when [krnl deploy] was launched and
    succeeded, and exactly then the closing messages are printed. *)
Theorem setup_stops_at_first_failure (w : shell_world) :
  env_file_exists w = true ->
  let tr := snd (krnl_setup_run w) in
  Forall (fun c => status_of w c = 0) (removelast (launches tr)) /\
  fst (krnl_setup_run w) = status_of w (last (launches tr) SourceEnv) /\
  (fst (krnl_setup_run w) = 0 <->
   launched KrnlDeploy tr = true /\ status_of w KrnlDeploy = 0) /\
  (fst (krnl_setup_run w) = 0 <->
   existsb (fun e => match e with
                     | Echo text => (text =? "✅ Deployment complete!")%string
                     | Launch _ => false
                     end) tr = true).
Proof.
  intros H. destruct w as [e k f st]. cbn in H. subst e.
  unfold krnl_setup_run, krnl_setup, sh_seq, launch, echo, sh_exit;
    cbn [env_file_exists krnl_on_path foundry_toml_exists status_of negb].
  destruct k, f; cbn;
    repeat match goal with
      | |- context [st ?c =? 0] =>
          let Eq := fresh "Eq" in
          destruct (st c =? 0) eqn:Eq; cbn;
          [apply Z.eqb_eq in Eq | apply Z.eqb_neq in Eq]
      end;
    (split; [repeat (apply Forall_cons; [cbn; assumption|]);
             apply Forall_nil|]);
    (split; [congruence|]);
    (split; [split; [intros; split; congruence | intros [? ?]; congruence]|]);
    split; intros; congruence.
Qed.

Lemma setup_stops_at_first_failure_witness :
  env_file_exists broken_contract_machine = true /\
  fst (krnl_setup_run broken_contract_machine) = 1 /\
  launches (snd (krnl_setup_run broken_contract_machine))
    = [SourceEnv; KrnlCompile] /\
  fst (krnl_setup_run fresh_machine) = 0 /\
  launches (snd (krnl_setup_run fresh_machine))
    = [SourceEnv; NpmInstall; KrnlInit; KrnlCompile; ReadEnter; KrnlDeploy].
Proof.
  split; [reflexivity|].
  destruct (setup_stops_at_first_failure broken_contract_machine eq_refl)
    as [_ [A _]].
  destruct (setup_stops_at_first_failure fresh_machine eq_refl)
    as [_ [B _]].
  split; [exact A|]. split; [reflexivity|]. split; [exact B|reflexivity].
Defined.

(** X4.  The script installs the CLI only when [krnl] is not on the path
    and initialises the project only when there is no [foundry.toml]; it
    launches no command twice, and always in the order source, install,
    init, compile, read, deploy. *)
Theorem setup_skips_what_is_there (w : shell_world) :
  let tr := snd (krnl_setup_run w) in
  (launched NpmInstall tr = true -> krnl_on_path w = false) /\
  (launched KrnlInit tr = true -> foundry_toml_exists w = false) /\
  NoDup (launches tr) /\
  exists skipped,
    launches tr =
      filter (fun c => negb (existsb (command_eqb c) skipped))
             [SourceEnv; NpmInstall; KrnlInit; KrnlCompile; ReadEnter;
              KrnlDeploy].
Proof.
  run_setup w;
    (split; [intros; first [reflexivity | discriminate]|]);
    (split; [intros; first [reflexivity | discriminate]|]);
    (split; [repeat constructor; cbn; intuition discriminate|]).
  all: first
    [ exists []; reflexivity
    | exists [NpmInstall]; reflexivity
    | exists [KrnlInit]; reflexivity
    | exists [NpmInstall; KrnlInit]; reflexivity
    | exists [KrnlDeploy]; reflexivity
    | exists [NpmInstall; KrnlDeploy]; reflexivity
    | exists [KrnlInit; KrnlDeploy]; reflexivity
    | exists [NpmInstall; KrnlInit; KrnlDeploy]; reflexivity
    | exists [ReadEnter; KrnlDeploy]; reflexivity
    | exists [NpmInstall; ReadEnter; KrnlDeploy]; reflexivity
    | exists [KrnlInit; ReadEnter; KrnlDeploy]; reflexivity
    | exists [NpmInstall; KrnlInit; ReadEnter; KrnlDeploy]; reflexivity
    | exists [KrnlCompile; ReadEnter; KrnlDeploy]; reflexivity
    | exists [NpmInstall; KrnlCompile; ReadEnter; KrnlDeploy]; reflexivity
    | exists [KrnlInit; KrnlCompile; ReadEnter; KrnlDeploy]; reflexivity
    | exists [NpmInstall; KrnlInit; KrnlCompile; ReadEnter; KrnlDeploy];
      reflexivity
    | exists [KrnlInit; KrnlCompile; ReadEnter; KrnlDeploy; NpmInstall];
      reflexivity
    | exists [SourceEnv; NpmInstall; KrnlInit; KrnlCompile; ReadEnter;
              KrnlDeploy]; reflexivity
    | exists [NpmInstall; KrnlInit; KrnlCompile; ReadEnter; KrnlDeploy;
              SourceEnv]; reflexivity ].
Qed.

(* ================================================================= *)
(** ** Requests, draws and pauses of the loop *)

Lemma rpcs_app (a b : list event) : rpcs (a ++ b) = rpcs a ++ rpcs b.
Proof.
  induction a as [|e a IH]; [reflexivity|].
  destruct e; cbn; now rewrite IH.
Qed.

Lemma slept_app (a b : list event) : slept (a ++ b) = slept a ++ slept b.
Proof.
  induction a as [|e a IH]; [reflexivity|].
  destruct e; cbn; now rewrite IH.
Qed.

Section Traffic.

Variable K : constants.
Variable W : world.

(** The requests one iteration sends, by path. *)
Lemma attempt_rpcs (i : nat) (s : state) :
  exists new,
    events (exec (attempt K W i) s) = events s ++ new /\
    rpcs new =
      match path_of W s with
      | FailedRead _ => [GetCount]
      | FailedSubmit _ => [GetCount; Increment]
      | FailedWait _ | FailedCost _ => [GetCount; Increment; Wait]
      | FailedPostRead _ _ _ | Succeeded _ _ => attempt_requests
      end.
Proof.
  run_attempt;
    repeat rewrite <- app_assoc; cbn;
    eexists; (split; [reflexivity | reflexivity]).
Qed.

(** The draws one iteration takes and what it does with them, by path. *)
Lemma attempt_draws (i : nat) (s : state) :
  match path_of W s with
  | Succeeded _ _ =>
      if (i <? INCREMENT_COUNT K)%nat then
        n_random (exec (attempt K W i) s) = S (S (n_random s)) /\
        exists before,
          events (exec (attempt K W i) s) =
            events s ++ before ++
              [Log (L_waiting (delay_of K (Math_random W (n_random s))));
               Sleep (delay_of K (Math_random W (S (n_random s))));
               Log L_blank]
      else n_random (exec (attempt K W i) s) = n_random s
  | _ => n_random (exec (attempt K W i) s) = n_random s
  end.
Proof.
  run_attempt; try reflexivity.
  split; [reflexivity|].
  repeat rewrite <- app_assoc; cbn.
  eexists [_; _; _; _; _; _; _; _]. reflexivity.
Qed.

Lemma attempts_from_snoc (k i : nat) (s : state) :
  exec (attempts_from K W (S k) i) s =
    exec (attempt K W (i + k)) (exec (attempts_from K W k i) s).
Proof.
  unfold exec. rewrite !attempts_from_fold. cbn [snd].
  rewrite seq_S, fold_left_app. reflexivity.
Qed.

(** The trace only grows. *)
Lemma attempt_extends (i : nat) (s : state) :
  exists new, events (exec (attempt K W i) s) = events s ++ new.
Proof. destruct (attempt_rpcs i s) as [new [Ev _]]. eauto. Qed.

End Traffic.

Section LoopTraffic.

Variable K : constants.
Variable W : world.

(** X5.  The requests of the loop come in one block per iteration, and
    each block is a beginning of: read the counter, submit, wait, read the
    counter.  A rejected counter read is followed by no submission in that
    iteration and a rejected submission by no wait, so the loop submits at
    most one transaction per iteration and never a second one before the
    first was waited for. *)
Theorem requests_come_in_attempt_blocks :
  (forall i s,
      exists new n,
        events (exec (attempt K W i) s) = events s ++ new /\
        (1 <= n <= 4)%nat /\
        rpcs new = firstn n attempt_requests /\
        (forall e, getCount_reply W (n_getCount s) = Reject e -> n = 1%nat) /\
        (forall c e,
            getCount_reply W (n_getCount s) = Resolve c ->
            increment_reply W (n_increment s) = Reject e -> n = 2%nat)) /\
  (forall k i s,
      exists new blocks,
        events (exec (attempts_from K W k i) s) = events s ++ new /\
        rpcs new = List.concat blocks /\
        List.length blocks = k /\
        Forall (fun b => exists n, (1 <= n <= 4)%nat /\
                                   b = firstn n attempt_requests) blocks /\
        (submissions new <= k)%nat).
Proof.
  assert (One : forall i s,
      exists new n,
        events (exec (attempt K W i) s) = events s ++ new /\
        (1 <= n <= 4)%nat /\
        rpcs new = firstn n attempt_requests /\
        (forall e, getCount_reply W (n_getCount s) = Reject e -> n = 1%nat) /\
        (forall c e,
            getCount_reply W (n_getCount s) = Resolve c ->
            increment_reply W (n_increment s) = Reject e -> n = 2%nat)).
  { intros i s. destruct (attempt_rpcs K W i s) as [new [Ev R]].
    exists new. revert R. unfold path_of.
    destruct (getCount_reply W (n_getCount s)) as [c|e].
    2:{ intros R. exists 1%nat. repeat split; try lia; try exact R;
        intros; congruence. }
    destruct (increment_reply W (n_increment s)) as [t|e].
    2:{ intros R. exists 2%nat. repeat split; try lia; try exact R;
        intros; congruence. }
    destruct (wait_reply W (n_wait s)) as [r|e].
    2:{ intros R. exists 3%nat. repeat split; try lia; try exact R;
        intros; congruence. }
    destruct (js_or _ _).
    2:{ intros R. exists 3%nat. repeat split; try lia; try exact R;
        intros; congruence. }
    destruct (getCount_reply W (S (n_getCount s)));
      intros R; exists 4%nat; repeat split; try lia; try exact R;
      intros; congruence. }
  split; [exact One|].
  induction k as [|k IH]; intros i s.
  - exists [], []. cbn. rewrite app_nil_r. repeat split; constructor.
  - rewrite attempts_from_step.
    destruct (One i s) as [new1 [n [Ev1 [Hn [R1 _]]]]].
    destruct (IH (S i) (exec (attempt K W i) s))
      as [new2 [blocks [Ev2 [R2 [Len [All Sub]]]]]].
    exists (new1 ++ new2), (firstn n attempt_requests :: blocks).
    split; [rewrite Ev2, Ev1; now rewrite app_assoc|].
    split; [rewrite rpcs_app, R1, R2; reflexivity|].
    split; [cbn; now rewrite Len|].
    split; [constructor; [exists n; auto | exact All]|].
    unfold submissions in *. rewrite rpcs_app, filter_app, length_app, R1.
    assert (List.length (filter is_increment (firstn n attempt_requests))
            <= 1)%nat.
    { destruct n as [|[|[|[|[|n]]]]]; cbn; lia. }
    lia.
Qed.

End LoopTraffic.

Section LoopPauses.

Variable K : constants.
Variable W : world.

(** X6.  After a success that is not the last iteration the script takes
    two draws of [Math.random()]: the first only for the duration it
    prints, the second, inside [randomDelay], for the timer it waits on.
    The pause announced on the console is therefore not the pause taken.
    A failure, and a success in the last iteration, take no draw. *)
Theorem announced_pause_is_another_draw (i : nat) (s : state) :
  (successCount (exec (attempt K W i) s) = successCount s + 1 ->
   (i < INCREMENT_COUNT K)%nat ->
   n_random (exec (attempt K W i) s) = S (S (n_random s)) /\
   exists before,
     events (exec (attempt K W i) s) =
       events s ++ before ++
         [Log (L_waiting (delay_of K (Math_random W (n_random s))));
          Sleep (delay_of K (Math_random W (S (n_random s))));
          Log L_blank]) /\
  (failCount (exec (attempt K W i) s) = failCount s + 1 \/
   (INCREMENT_COUNT K <= i)%nat ->
   n_random (exec (attempt K W i) s) = n_random s).
Proof.
  pose proof (attempt_stats K W i s) as St; cbn zeta in St.
  pose proof (attempt_draws K W i s) as Dr.
  destruct (path_of W s) as [e|e|e|r|r p e|r p]; split;
    try (intros; lia); try (intros; exact Dr).
  - intros _ Lt. apply Nat.ltb_lt in Lt. now rewrite Lt in Dr.
  - intros [F|Ge]; [lia|]. apply Nat.ltb_ge in Ge. now rewrite Ge in Dr.
Qed.

(** Every iteration that is not the last one sets exactly one timer. *)
Lemma attempt_before_last_sleeps_once (i : nat) (s : state) :
  (i < INCREMENT_COUNT K)%nat ->
  exists new d,
    events (exec (attempt K W i) s) = events s ++ new /\
    slept new = [d] /\
    (draws_are_doubles W -> safe_constants K -> pause_ok K d).
Proof.
  intros Lt. destruct (attempt_sleeps K W i s) as [new [Ev Sl]].
  apply Nat.ltb_lt in Lt. rewrite Lt in Sl.
  exists new.
  destruct (path_of W s);
    eexists; (split; [exact Ev|]); (split; [exact Sl|]);
    intros U Sf; try (left; reflexivity).
  right. apply delay_of_range; [apply U | exact Sf].
Qed.

Lemma attempts_before_last_sleep (k i : nat) (s : state) :
  (i + k <= INCREMENT_COUNT K)%nat ->
  exists new,
    events (exec (attempts_from K W k i) s) = events s ++ new /\
    List.length (slept new) = k /\
    (draws_are_doubles W -> safe_constants K ->
     Forall (pause_ok K) (slept new)).
Proof.
  revert i s. induction k as [|k IH]; intros i s Le.
  - exists []. cbn. rewrite app_nil_r. repeat split. constructor.
  - rewrite attempts_from_step.
    destruct (attempt_before_last_sleeps_once i s) as [n1 [d [E1 [S1 B1]]]];
      [lia|].
    destruct (IH (S i) (exec (attempt K W i) s)) as [n2 [E2 [L2 B2]]];
      [lia|].
    exists (n1 ++ n2). split; [rewrite E2, E1; now rewrite app_assoc|].
    rewrite slept_app, S1. split; [cbn; now rewrite L2|].
    intros U Sf. constructor; [now apply B1 | now apply B2].
Qed.

Lemma pauses_sum_bound (l : list Z) :
  MIN_DELAY K <= MAX_DELAY K ->
  Forall (pause_ok K) l ->
  fold_right Z.add 0 l <= Z.of_nat (List.length l) * Z.max 5000 (MAX_DELAY K).
Proof.
  intros Ord All. induction All as [|d l Hd All IH]; [cbn; lia|].
  cbn [fold_right List.length]. rewrite Nat2Z.inj_succ.
  assert (d <= Z.max 5000 (MAX_DELAY K)) by (destruct Hd; lia).
  lia.
Qed.

(** X7.  The loop sets one timer after every iteration but a successful
    last one, so [INCREMENT_COUNT] or one fewer in all.  With draws that
    are numbers of [0,1) and delay bounds that are integers in order, each
    timer is the 5000 ms backoff or lies between [MIN_DELAY] and
    [MAX_DELAY], and the loop spends at most [INCREMENT_COUNT] times the
    larger of 5000 and [MAX_DELAY] milliseconds waiting on timers. *)
Theorem loop_pauses_are_bounded (s : state) :
  draws_are_doubles W ->
  safe_constants K ->
  exists new,
    events (exec (attempt_loop K W) s) = events s ++ new /\
    (INCREMENT_COUNT K - 1 <= List.length (slept new) <= INCREMENT_COUNT K)%nat /\
    Forall (pause_ok K) (slept new) /\
    fold_right Z.add 0 (slept new)
      <= Z.of_nat (INCREMENT_COUNT K) * Z.max 5000 (MAX_DELAY K).
Proof.
  intros U Sf.
  assert (Ord : MIN_DELAY K <= MAX_DELAY K) by (destruct Sf; lia).
  unfold attempt_loop.
  assert (Core : exists new,
    events (exec (attempts_from K W (INCREMENT_COUNT K) 1) s) = events s ++ new /\
    (INCREMENT_COUNT K - 1 <= List.length (slept new) <= INCREMENT_COUNT K)%nat /\
    Forall (pause_ok K) (slept new)).
  { destruct (INCREMENT_COUNT K) as [|m] eqn:EN.
    - exists []. cbn. rewrite app_nil_r. repeat split; try lia. constructor.
    - rewrite attempts_from_snoc.
      destruct (attempts_before_last_sleep m 1 s) as [n1 [E1 [L1 B1]]];
        [lia|].
      destruct (attempt_sleeps K W (1 + m)
                  (exec (attempts_from K W m 1) s)) as [n2 [E2 S2]].
      assert (Last : (1 + m <? INCREMENT_COUNT K)%nat = false)
        by (apply Nat.ltb_ge; lia).
      rewrite Last in S2.
      exists (n1 ++ n2). split; [rewrite E2, E1; now rewrite app_assoc|].
      rewrite slept_app, length_app, L1.
      destruct (path_of W (exec (attempts_from K W m 1) s));
        rewrite S2; cbn [List.length]; (split; [lia|]);
        apply Forall_app; (split; [now apply B1|]);
        repeat constructor. }
  destruct Core as [new [Ev [Len All]]].
  exists new. repeat split; try assumption; try lia.
  pose proof (pauses_sum_bound (slept new) Ord All) as Sum.
  assert (0 <= Z.max 5000 (MAX_DELAY K)) by lia.
  nia.
Qed.

End LoopPauses.

Section ExactAccounting.

Variable K : constants.
Variable W : world.

(** X8.  Gas is added on an iteration counted as a failure only when the
    counter read that follows the confirmation is rejected: if that read is
    answered, a failure leaves both totals as they were; and whenever a
    failure changes a total, that read was rejected after a receipt was
    obtained. *)
Theorem failure_adds_gas_only_after_lost_read (i : nat) (s : state) :
  failCount (exec (attempt K W i) s) = failCount s + 1 ->
  ((forall e, getCount_reply W (S (n_getCount s)) <> Reject e) ->
   totalGasUsed (exec (attempt K W i) s) = totalGasUsed s /\
   totalGasCost (exec (attempt K W i) s) = totalGasCost s) /\
  (totalGasUsed (exec (attempt K W i) s) <> totalGasUsed s \/
   totalGasCost (exec (attempt K W i) s) <> totalGasCost s ->
   (exists e, getCount_reply W (S (n_getCount s)) = Reject e) /\
   (exists r, wait_reply W (n_wait s) = Resolve r)).
Proof.
  intros F.
  pose proof (attempt_stats K W i s) as St; cbn zeta in St.
  revert St. unfold path_of.
  destruct (getCount_reply W (n_getCount s)) as [c|e];
    [|intros; split; intros; lia].
  destruct (increment_reply W (n_increment s)) as [t|e];
    [|intros; split; intros; lia].
  destruct (wait_reply W (n_wait s)) as [r|e];
    [|intros; split; intros; lia].
  destruct (js_or _ _) as [p|]; [|intros; split; intros; lia].
  destruct (getCount_reply W (S (n_getCount s))) as [c'|e] eqn:Post.
  - intros St. lia.
  - intros St. split.
    + intros No. now destruct (No e).
    + intros _. split; eauto.
Qed.



End ExactAccounting.

Section WholeRuns.

Variable formatEth : Z -> string.
Variable K : constants.
Variable E : env.
Variable W : world.

Lemma startup_ok (s : state) (b c : Z) :
  getBalance_reply W (n_getBalance s) = Resolve b ->
  b <> 0 ->
  getCount_reply W (n_getCount s) = Resolve c ->
  exists s0,
    startup K E W s = (Ret (b, c), s0) /\
    events s0 =
      events s ++ [Log L_banner; Log L_bannerRule;
                   Log (L_contractAddress (COUNTER_ADDRESS E));
                   Log L_walletAddress;
                   Log (L_target (INCREMENT_COUNT K));
                   Log (L_delayRange (MIN_DELAY K) (MAX_DELAY K));
                   Log L_blank; Rpc GetBalance; Log (L_walletBalance b);
                   Rpc GetCount; Log (L_initialValue c); Log L_blank;
                   Log L_starting; Log L_blank].
Proof.
  intros Hb Nz Hc. unfold startup, bind, provider_getBalance,
    contract_getCount; cbn.
  rewrite Hb; cbn. apply Z.eqb_neq in Nz. rewrite Nz; cbn.
  rewrite Hc; cbn.
  eexists. split; [reflexivity|].
  cbn. now repeat rewrite <- app_assoc.
Qed.

(** The two reads of the start-up, when one of them is rejected. *)
Lemma startup_read_lost (s : state) (e : js_error) :
  getBalance_reply W (n_getBalance s) = Reject e \/
  (exists b, getBalance_reply W (n_getBalance s) = Resolve b /\ b <> 0 /\
             getCount_reply W (n_getCount s) = Reject e) ->
  exists s' new,
    startup K E W s = (Throw e, s') /\
    same_stats s s' /\
    events s' = events s ++ new /\
    rpcs new = match getBalance_reply W (n_getBalance s) with
               | Reject _ => [GetBalance]
               | Resolve _ => [GetBalance; GetCount]
               end.
Proof.
  intros [Hb|[b [Hb [Nz Hc]]]];
    unfold startup, bind, provider_getBalance, contract_getCount; cbn;
    rewrite Hb; cbn.
  - do 2 eexists. split; [reflexivity|]. split; [repeat split|].
    cbn. repeat rewrite <- app_assoc. split; reflexivity.
  - apply Z.eqb_neq in Nz. rewrite Nz; cbn. rewrite Hc; cbn.
    do 2 eexists. split; [reflexivity|]. split; [repeat split|].
    cbn. repeat rewrite <- app_assoc. split; reflexivity.
Qed.

Lemma loop_end_of_startup (b c : Z) (s0 : state) :
  startup K E W initial_state = (Ret (b, c), s0) ->
  loop_end K E W = Some (b, c, exec (attempt_loop K W) s0).
Proof. intros H. unfold loop_end. now rewrite H. Qed.

(** With every read answered and every submission confirmed, every
    iteration is a success. *)
Lemma healthy_attempts (k i : nat) (s : state) :
  reads_answered W -> submissions_confirmed W ->
  successCount (exec (attempts_from K W k i) s) = successCount s + Z.of_nat k /\
  failCount (exec (attempts_from K W k i) s) = failCount s.
Proof.
  intros [Reads _] Conf. revert i s.
  induction k as [|k IH]; intros i s.
  - cbn. lia.
  - rewrite attempts_from_step.
    pose proof (attempt_stats K W i s) as St; cbn zeta in St.
    assert (P : exists r p, path_of W s = Succeeded r p).
    { unfold path_of.
      destruct (Reads (n_getCount s)) as [c Hc]. rewrite Hc.
      destruct (Conf (n_increment s) (n_wait s)) as [t [r [p [Ht [Hr Hp]]]]].
      rewrite Ht, Hr, Hp.
      destruct (Reads (S (n_getCount s))) as [c' Hc']. rewrite Hc'. eauto. }
    destruct P as [r [p P]]. rewrite P in St.
    destruct (IH (S i) (exec (attempt K W i) s)). lia.
Qed.

(** X10.  Against a node that answers every read, accepts and confirms
    every submission and reports a gas price, with the configuration in
    place and a balance other than zero, the run counts
    [INCREMENT_COUNT] successes and no failure and exits with code 0. *)
Theorem healthy_run_succeeds_every_time :
  falsy (PRIVATE_KEY E) = false ->
  falsy (COUNTER_ADDRESS E) = false ->
  ethers_setup W = None ->
  reads_answered W ->
  submissions_confirmed W ->
  getBalance_reply W 0 <> Resolve 0 ->
  fst (run formatEth K E W) = 0 /\
  successCount (snd (run formatEth K E W)) = Z.of_nat (INCREMENT_COUNT K) /\
  failCount (snd (run formatEth K E W)) = 0.
Proof.
  intros Ek Ea Hs Reads Conf Funds.
  destruct Reads as [RC RB].
  destruct (RB 0%nat) as [b Hb]. destruct (RC 0%nat) as [c Hc].
  assert (Nz : b <> 0) by (intros ->; now apply Funds).
  destruct (startup_ok initial_state b c Hb Nz Hc) as [s0 [St _]].
  pose proof (startup_outcomes K E W initial_state) as SO. rewrite St in SO.
  set (sL := exec (attempt_loop K W) s0).
  destruct (RC (n_getCount sL)) as [fc Hfc].
  destruct (RB (n_getBalance sL)) as [fb Hfb].
  destruct (run_completes formatEth K E W b c sL fc fb Ek Ea Hs
              (loop_end_of_startup b c s0 St) Hfc Hfb)
    as [Code [[A [B _]] _]].
  destruct (healthy_attempts (INCREMENT_COUNT K) 1 s0 (conj RC RB) Conf)
    as [Su Fa].
  fold (attempt_loop K W) in Su, Fa. fold sL in Su, Fa.
  repeat split; [exact Code | lia | lia].
Qed.

(** With every submission rejected, every iteration fails before a
    receipt and waits the fixed backoff. *)
Lemma rejected_attempts (k i : nat) (s : state) :
  (forall n, exists c, getCount_reply W n = Resolve c) ->
  (forall n, exists e, increment_reply W n = Reject e) ->
  successCount (exec (attempts_from K W k i) s) = successCount s /\
  failCount (exec (attempts_from K W k i) s) = failCount s + Z.of_nat k /\
  totalGasUsed (exec (attempts_from K W k i) s) = totalGasUsed s /\
  totalGasCost (exec (attempts_from K W k i) s) = totalGasCost s /\
  exists new,
    events (exec (attempts_from K W k i) s) = events s ++ new /\
    slept new = repeat 5000 k /\
    submissions new = k.
Proof.
  intros Reads Rej. revert i s.
  induction k as [|k IH]; intros i s.
  - cbn. repeat split; try lia.
    exists []. now rewrite app_nil_r.
  - rewrite attempts_from_step.
    assert (P : exists e, path_of W s = FailedSubmit e).
    { unfold path_of. destruct (Reads (n_getCount s)) as [c Hc]. rewrite Hc.
      destruct (Rej (n_increment s)) as [e He]. rewrite He. eauto. }
    destruct P as [e P].
    pose proof (attempt_stats K W i s) as St; cbn zeta in St.
    destruct (attempt_sleeps K W i s) as [n1 [E1 S1]].
    destruct (attempt_rpcs K W i s) as [n1' [E1' R1]].
    rewrite P in St, S1, R1.
    assert (n1' = n1) by (rewrite E1 in E1'; now apply app_inv_head in E1').
    subst n1'.
    destruct (IH (S i) (exec (attempt K W i) s))
      as [A [B [C [D [n2 [E2 [S2 R2]]]]]]].
    repeat split; try lia.
    exists (n1 ++ n2). split; [rewrite E2, E1; now rewrite app_assoc|].
    split; [rewrite slept_app, S1, S2; reflexivity|].
    unfold submissions in *.
    rewrite rpcs_app, filter_app, length_app, R1, R2. reflexivity.
Qed.

(** X11.  Against a node that answers every read and rejects every
    submission, the run still exits with code 0: it submits
    [INCREMENT_COUNT] transactions, counts as many failures and no success,
    records no gas, and waits the 5000 ms backoff after every one of them,
    the last included. *)
Theorem rejected_run_only_backs_off :
  falsy (PRIVATE_KEY E) = false ->
  falsy (COUNTER_ADDRESS E) = false ->
  ethers_setup W = None ->
  reads_answered W ->
  (forall n, exists e, increment_reply W n = Reject e) ->
  getBalance_reply W 0 <> Resolve 0 ->
  fst (run formatEth K E W) = 0 /\
  successCount (snd (run formatEth K E W)) = 0 /\
  failCount (snd (run formatEth K E W)) = Z.of_nat (INCREMENT_COUNT K) /\
  totalGasUsed (snd (run formatEth K E W)) = 0 /\
  totalGasCost (snd (run formatEth K E W)) = 0 /\
  slept (events (snd (run formatEth K E W)))
    = repeat 5000 (INCREMENT_COUNT K) /\
  submissions (events (snd (run formatEth K E W))) = INCREMENT_COUNT K.
Proof.
  intros Ek Ea Hs Reads Rej Funds.
  destruct Reads as [RC RB].
  destruct (RB 0%nat) as [b Hb]. destruct (RC 0%nat) as [c Hc].
  assert (Nz : b <> 0) by (intros ->; now apply Funds).
  destruct (startup_ok initial_state b c Hb Nz Hc) as [s0 [St Ev0]].
  pose proof (startup_outcomes K E W initial_state) as SO. rewrite St in SO.
  destruct SO as [Z1 [Z2 [Z3 Z4]]].
  destruct (rejected_attempts (INCREMENT_COUNT K) 1 s0 RC Rej)
    as [A [B [C [D [new [EvL [Sl Sub]]]]]]].
  fold (attempt_loop K W) in A, B, C, D, EvL.
  set (sL := exec (attempt_loop K W) s0) in *.
  destruct (RC (n_getCount sL)) as [fc Hfc].
  destruct (RB (n_getBalance sL)) as [fb Hfb].
  pose proof (run_after_loop formatEth K E W b c sL Ek Ea Hs
                (loop_end_of_startup b c s0 St)) as R.
  destruct (report_completes formatEth K W b c fc fb sL Hfc Hfb)
    as [s' [avgGas [avgCost [Rep [[S1 [S2 [S3 S4]]] Ev]]]]].
  rewrite R, Rep. cbn [fst snd].
  repeat split; try lia.
  - rewrite Ev, EvL, Ev0. unfold statistics_block.
    rewrite !slept_app, Sl. cbn. now rewrite app_nil_r.
  - unfold submissions in *. rewrite Ev, EvL, Ev0.
    unfold statistics_block.
    rewrite !rpcs_app, !filter_app, !length_app, Sub. cbn. lia.
Qed.

End WholeRuns.

Section Startup.

Variable formatEth : Z -> string.
Variable K : constants.
Variable E : env.
Variable W : world.

(** X12.  When the balance read or the first counter read of the start-up
    is rejected, the error reaches the top-level handler: it is printed as
    fatal, the process exits with code 1, no transaction was submitted and
    the statistics are untouched. *)
Theorem failed_startup_read_is_fatal (e : js_error) :
  falsy (PRIVATE_KEY E) = false ->
  falsy (COUNTER_ADDRESS E) = false ->
  ethers_setup W = None ->
  getBalance_reply W 0 = Reject e \/
  (exists b, getBalance_reply W 0 = Resolve b /\ b <> 0 /\
             getCount_reply W 0 = Reject e) ->
  fst (run formatEth K E W) = 1 /\
  submissions (events (snd (run formatEth K E W))) = 0%nat /\
  same_stats initial_state (snd (run formatEth K E W)) /\
  exists before,
    events (snd (run formatEth K E W)) = before ++ [LogError (L_fatal e)].
Proof.
  intros Ek Ea Hs H.
  destruct (startup_read_lost K E W initial_state e H)
    as [s' [new [St [Same [Ev R]]]]].
  rewrite (run_configured formatEth K E W Ek Ea Hs), main_unfolded, St.
  cbn [fst snd]. split; [reflexivity|].
  split.
  - cbn in Ev, R. unfold submissions, exec, console_error, emit.
    cbn [snd events]. rewrite rpcs_app, Ev, R.
    destruct (getBalance_reply W 0); reflexivity.
  - split; [exact Same|]. exists (events s'). reflexivity.
Qed.

(** X13.  The configuration is checked before anything is sent to the
    node, the key first: a missing key prints its message alone, a missing
    address prints the two lines about the address, and in both cases, as
    when a constructor of ethers throws, the trace holds no request.  With
    an empty wallet the balance read is the only request: the counter is
    not read. *)
Theorem configuration_is_checked_before_the_network :
  (falsy (PRIVATE_KEY E) = true ->
   run formatEth K E W
     = (1, exec (console_error L_noKey) initial_state)) /\
  (falsy (PRIVATE_KEY E) = false ->
   falsy (COUNTER_ADDRESS E) = true ->
   events (snd (run formatEth K E W))
     = [LogError L_noAddress; LogError L_deployFirst] /\
   fst (run formatEth K E W) = 1) /\
  (falsy (PRIVATE_KEY E) = false ->
   falsy (COUNTER_ADDRESS E) = false ->
   forall e, ethers_setup W = Some e ->
   run formatEth K E W = (1, initial_state)) /\
  (falsy (PRIVATE_KEY E) = false ->
   falsy (COUNTER_ADDRESS E) = false ->
   ethers_setup W = None ->
   getBalance_reply W 0 = Resolve 0 ->
   rpcs (events (snd (run formatEth K E W))) = [GetBalance]).
Proof.
  split; [|split; [|split]].
  - intros Ek. unfold run, script. now rewrite Ek.
  - intros Ek Ea. unfold run, script. now rewrite Ek, Ea.
  - intros Ek Ea e Hs. unfold run, script. now rewrite Ek, Ea, Hs.
  - intros Ek Ea Hs H.
    rewrite (run_configured formatEth K E W Ek Ea Hs), main_unfolded.
    destruct (startup_empty_wallet K E W initial_state H)
      as [s' [St [_ Ev]]].
    rewrite St. cbn [fst snd]. rewrite Ev. reflexivity.
Qed.

End Startup.


(* ================================================================= *)
(** ** The further statements at concrete worlds *)

Lemma steady_world_reads_answered : reads_answered steady_world.
Proof. split; intros k; eexists; reflexivity. Qed.

Lemma steady_world_confirms : submissions_confirmed steady_world.
Proof. intros k k'. do 3 eexists. repeat split. Qed.

Lemma steady_world_draws : draws_are_doubles steady_world.
Proof. intros k. exists (2 ^ 52), (-53). repeat split; try lia. Qed.

Lemma source_constants_safe : safe_constants source_constants.
Proof. unfold safe_constants; cbn; lia. Qed.

Lemma rejecting_world_reads_answered : reads_answered rejecting_world.
Proof. split; intros k; eexists; reflexivity. Qed.

Lemma funded (W : world) :
  getBalance_reply W 0 = Resolve one_ether -> getBalance_reply W 0 <> Resolve 0.
Proof. intros ->. intros H. inversion H. Qed.

(** A fresh machine installs and initialises; nothing is launched twice. *)
Lemma setup_skips_what_is_there_witness :
  launched NpmInstall (snd (krnl_setup_run fresh_machine)) = true /\
  krnl_on_path fresh_machine = false /\
  NoDup (launches (snd (krnl_setup_run fresh_machine))).
Proof.
  destruct (setup_skips_what_is_there fresh_machine) as [A [_ [C _]]].
  split; [reflexivity|]. split; [exact (A eq_refl) | exact C].
Defined.

(** A rejected submission: the block is the read and the submission. *)
Lemma requests_come_in_attempt_blocks_witness :
  (getCount_reply rejecting_world 0 = Resolve 0 /\
   increment_reply rejecting_world 0 = Reject (mkError "insufficient funds")) /\
  rpcs (events (exec (attempt source_constants rejecting_world 1)
                     initial_state))
    = [GetCount; Increment].
Proof.
  split; [split; reflexivity|].
  destruct (proj1 (requests_come_in_attempt_blocks source_constants
                     rejecting_world) 1%nat initial_state)
    as [new [n [Ev [_ [R [_ Two]]]]]].
  rewrite Ev. cbn [events initial_state app]. rewrite R.
  rewrite (Two 0 (mkError "insufficient funds") eq_refl eq_refl).
  reflexivity.
Defined.

(** Draws of 0 and 1023/1024: the console announces 1000 ms, the timer
    runs 2999 ms. *)
Lemma announced_pause_is_another_draw_witness :
  (successCount (exec (attempt three_attempts alternating_draw_world 1)
                      initial_state)
     = successCount initial_state + 1 /\
   (1 < INCREMENT_COUNT three_attempts)%nat) /\
  exists before,
    events (exec (attempt three_attempts alternating_draw_world 1)
                 initial_state)
      = before ++ [Log (L_waiting 1000); Sleep 2999; Log L_blank].
Proof.
  assert (H1 : successCount
                 (exec (attempt three_attempts alternating_draw_world 1)
                       initial_state)
               = successCount initial_state + 1) by reflexivity.
  assert (H2 : (1 < INCREMENT_COUNT three_attempts)%nat) by (cbn; lia).
  split; [split; assumption|].
  destruct (proj1 (announced_pause_is_another_draw three_attempts
                     alternating_draw_world 1 initial_state) H1 H2)
    as [_ [before Ev]].
  exists before. rewrite Ev. reflexivity.
Defined.

(** The loop of 50 iterations in [steady_world]. *)
Lemma loop_pauses_are_bounded_witness :
  (draws_are_doubles steady_world /\ safe_constants source_constants) /\
  exists new,
    events (exec (attempt_loop source_constants steady_world) initial_state)
      = events initial_state ++ new /\
    (49 <= List.length (slept new) <= 50)%nat /\
    fold_right Z.add 0 (slept new) <= 50 * 5000.
Proof.
  split; [split; [exact steady_world_draws | exact source_constants_safe]|].
  destruct (loop_pauses_are_bounded source_constants steady_world
              initial_state steady_world_draws source_constants_safe)
    as [new [Ev [Len [_ Sum]]]].
  exists new. split; [exact Ev|]. split; [exact Len | exact Sum].
Defined.

(** A rejected submission leaves the totals alone; the rejected read of
    [lost_read_world] is the one case where a failure adds gas. *)
Lemma failure_adds_gas_only_after_lost_read_witness :
  (failCount (exec (attempt source_constants rejecting_world 1) initial_state)
     = failCount initial_state + 1 /\
   forall e, getCount_reply rejecting_world 1 <> Reject e) /\
  totalGasUsed (exec (attempt source_constants rejecting_world 1)
                     initial_state) = 0 /\
  exists e, getCount_reply lost_read_world 2 = Reject e.
Proof.
  assert (F : failCount (exec (attempt source_constants rejecting_world 1)
                              initial_state)
              = failCount initial_state + 1) by reflexivity.
  assert (A : forall e, getCount_reply rejecting_world 1 <> Reject e)
    by (intros e; discriminate).
  split; [split; assumption|]. split.
  - exact (proj1 (proj1 (failure_adds_gas_only_after_lost_read
                           source_constants rejecting_world 1 initial_state F)
                    A)).
  - assert (F' : failCount
                   (exec (attempt source_constants lost_read_world 1)
                         (mkState 1 1 0 0 0 0 0 0 0 []))
                 = failCount (mkState 1 1 0 0 0 0 0 0 0 []) + 1)
      by reflexivity.
    apply (proj2 (failure_adds_gas_only_after_lost_read
                    source_constants lost_read_world 1
                    (mkState 1 1 0 0 0 0 0 0 0 []) F')).
    left. cbn. discriminate.
Defined.


Lemma healthy_run_succeeds_every_time_witness :
  (reads_answered steady_world /\ submissions_confirmed steady_world /\
   getBalance_reply steady_world 0 <> Resolve 0) /\
  fst (run plain_wei source_constants env_ok steady_world) = 0 /\
  successCount (snd (run plain_wei source_constants env_ok steady_world))
    = 50 /\
  failCount (snd (run plain_wei source_constants env_ok steady_world)) = 0.
Proof.
  split.
  - split; [exact steady_world_reads_answered|].
    split; [exact steady_world_confirms | exact (funded steady_world eq_refl)].
  - exact (healthy_run_succeeds_every_time plain_wei source_constants env_ok
             steady_world eq_refl eq_refl eq_refl
             steady_world_reads_answered steady_world_confirms
             (funded steady_world eq_refl)).
Defined.

Lemma rejected_run_only_backs_off_witness :
  (reads_answered rejecting_world /\
   (forall n, exists e, increment_reply rejecting_world n = Reject e) /\
   getBalance_reply rejecting_world 0 <> Resolve 0) /\
  fst (run plain_wei source_constants env_ok rejecting_world) = 0 /\
  failCount (snd (run plain_wei source_constants env_ok rejecting_world))
    = 50 /\
  slept (events (snd (run plain_wei source_constants env_ok rejecting_world)))
    = repeat 5000 50.
Proof.
  assert (Rj : forall n, exists e,
               increment_reply rejecting_world n = Reject e)
    by (intros n; eexists; reflexivity).
  split.
  - split; [exact rejecting_world_reads_answered|].
    split; [exact Rj | exact (funded rejecting_world eq_refl)].
  - destruct (rejected_run_only_backs_off plain_wei source_constants env_ok
                rejecting_world eq_refl eq_refl eq_refl
                rejecting_world_reads_answered Rj
                (funded rejecting_world eq_refl))
      as [A [_ [C [_ [_ [F _]]]]]].
    split; [exact A|]. split; [exact C | exact F].
Defined.

Lemma failed_startup_read_is_fatal_witness :
  (exists b, getBalance_reply first_count_lost_world 0 = Resolve b /\
             b <> 0 /\
             getCount_reply first_count_lost_world 0
               = Reject (mkError "ECONNREFUSED")) /\
  fst (run plain_wei source_constants env_ok first_count_lost_world) = 1 /\
  submissions
    (events (snd (run plain_wei source_constants env_ok
                      first_count_lost_world))) = 0%nat.
Proof.
  assert (H : exists b,
             getBalance_reply first_count_lost_world 0 = Resolve b /\
             b <> 0 /\
             getCount_reply first_count_lost_world 0
               = Reject (mkError "ECONNREFUSED")).
  { exists one_ether. split; [reflexivity|]. split; [|reflexivity].
    unfold one_ether. intros Z0. inversion Z0. }
  split; [exact H|].
  destruct (failed_startup_read_is_fatal plain_wei source_constants env_ok
              first_count_lost_world (mkError "ECONNREFUSED")
              eq_refl eq_refl eq_refl (or_intror H))
    as [A [B _]].
  split; [exact A | exact B].
Defined.

Lemma configuration_is_checked_before_the_network_witness :
  (falsy (PRIVATE_KEY env_no_key) = true /\
   events (snd (run plain_wei source_constants env_no_key steady_world))
     = [LogError L_noKey]) /\
  (falsy (COUNTER_ADDRESS env_no_address) = true /\
   events (snd (run plain_wei source_constants env_no_address steady_world))
     = [LogError L_noAddress; LogError L_deployFirst]) /\
  (getBalance_reply empty_wallet_world 0 = Resolve 0 /\
   rpcs (events (snd (run plain_wei source_constants env_ok
                          empty_wallet_world))) = [GetBalance]).
Proof.
  split; [|split].
  - split; [reflexivity|].
    rewrite (proj1 (configuration_is_checked_before_the_network
                      plain_wei source_constants env_no_key steady_world)
               eq_refl).
    reflexivity.
  - split; [reflexivity|].
    exact (proj1 (proj1 (proj2 (configuration_is_checked_before_the_network
                                  plain_wei source_constants env_no_address
                                  steady_world))
                    eq_refl eq_refl)).
  - split; [reflexivity|].
    exact (proj2 (proj2 (proj2 (configuration_is_checked_before_the_network
                                  plain_wei source_constants env_ok
                                  empty_wallet_world)))
             eq_refl eq_refl eq_refl eq_refl).
Defined.

